(** * mopidy-mpd: the playback commands of [mopidy_mpd/protocol/playback.py]

    A shallow embedding of the command handlers [pause], [play],
    [_play_minus_one], [playid], [seek], [seekid], [seekcur], [setvol] and
    [volume], and the properties of them that the specification states.

    A handler receives the [MpdContext] and talks to three Mopidy actors
    through [context.core]: playback, tracklist and mixer.  Every
    [actor.method(...).get()] of the source is one entry of a call log here;
    what a query answers is read from a snapshot of the core, and a handler
    either returns or raises one Python exception.  A snapshot is enough:
    every handler makes all its queries before its first request to change
    something, and of the requests only [set_volume] has an answer the
    handler looks at.  Seconds are binary64 floats, as in Python. *)

From Stdlib Require Import ZArith List String Ascii Bool Floats Lia.
Import ListNotations.
Open Scope Z_scope.

(** ** Python values *)

(** The exceptions the handlers can leave with: the four of
    [mopidy_mpd.exceptions] that the file raises, and Python's own. *)
Inductive exn : Type :=
| MpdArgError (message : string)
| MpdNoExistError (message : string)
| MpdSystemError (message : string)
| MpdNotImplementedError
| IndexError
| ValueError
| OverflowError.

Inductive result (A : Type) : Type :=
| Ok (a : A)
| Raise (e : exn).
Arguments Ok {A} a.
Arguments Raise {A} e.

Module Py.

(** [l[start:stop]] on a list: a negative bound counts from the end, and
    both bounds are then cut to [0 .. len(l)]. *)
Definition adjust_index (len i : Z) : Z :=
  let i := if i <? 0 then i + len else i in
  Z.max 0 (Z.min i len).

Definition slice {A : Type} (l : list A) (start stop : Z) : list A :=
  let len := Z.of_nat (List.length l) in
  let a := adjust_index len start in
  let b := adjust_index len stop in
  firstn (Z.to_nat (b - a)) (skipn (Z.to_nat a) l).

(** [l[0]] *)
Definition item0 {A : Type} (l : list A) : result A :=
  match l with
  | x :: _ => Ok x
  | [] => Raise IndexError
  end.

(** [l.index(x)], with [None] where Python raises [ValueError] *)
Fixpoint index {A : Type} (eqb : A -> A -> bool) (l : list A) (x : A)
  : option Z :=
  match l with
  | [] => None
  | y :: l' =>
      if eqb y x then Some 0 else option_map Z.succ (index eqb l' x)
  end.

(** [int(x)] on a float: the value without its fractional part.  A float
    is [(-1)^s * m * 2^e]. *)
Definition int (x : float) : result Z :=
  match Prim2SF x with
  | S754_zero _ => Ok 0
  | S754_finite s m e =>
      let a := if 0 <=? e then Z.pos m * 2 ^ e else Z.pos m / 2 ^ (- e) in
      Ok (if s then - a else a)
  | S754_infinity _ => Raise OverflowError
  | S754_nan => Raise ValueError
  end.

(** [round(x)] on a float: the nearest integer, a tie going to the even
    one. *)
Definition round (x : float) : result Z :=
  match Prim2SF x with
  | S754_zero _ => Ok 0
  | S754_finite s m e =>
      let a :=
        if 0 <=? e then Z.pos m * 2 ^ e
        else
          let d := 2 ^ (- e) in
          let q := Z.pos m / d in
          let r := Z.pos m mod d in
          if 2 * r <? d then q
          else if d <? 2 * r then q + 1
          else if Z.even q then q else q + 1 in
      Ok (if s then - a else a)
  | S754_infinity _ => Raise OverflowError
  | S754_nan => Raise ValueError
  end.

(** [s.startswith(("+", "-"))] *)
Definition startswith_sign (s : string) : bool :=
  match s with
  | String c _ => (Ascii.eqb c "+" || Ascii.eqb c "-")%bool
  | EmptyString => false
  end.

End Py.

(** ** The core a handler talks to *)

(** [mopidy.core.PlaybackState] *)
Inductive PlaybackState : Type := STOPPED | PLAYING | PAUSED.

(** [mopidy.models.TlTrack]: a tracklist id and the track, here its URI. *)
Record TlTrack : Type := mkTlTrack { tlid : Z; track : string }.

Definition TlTrack_eqb (a b : TlTrack) : bool :=
  (tlid a =? tlid b) && String.eqb (track a) (track b).

(** What the actors answer during one command.  The actors are Mopidy's, not
    this repository's: the tracklist is the Python list [_tl_tracks] that
    [slice], [filter] and [index] read, the mixer reports a volume or [None]
    and answers each [set_volume] with a bool. *)
Record Core : Type := mkCore {
  state : PlaybackState;
  current_tl_track : option TlTrack;
  time_position : Z;
  tl_tracks : list TlTrack;
  mixer_volume : option Z;
  mixer_accepts : Z -> bool
}.

(** One call on an actor. *)
Inductive Call : Type :=
| PlaybackGetState
| PlaybackGetCurrentTlid
| PlaybackGetCurrentTlTrack
| PlaybackGetTimePosition
| PlaybackPlay (tlid : option Z)
| PlaybackPause
| PlaybackResume
| PlaybackSeek (time_position : Z)
| TracklistSlice (start stop : Z)
| TracklistFilterTlid (tlid : Z)
| TracklistIndex (tl_track : option TlTrack)
| MixerGetVolume
| MixerSetVolume (volume : Z).

(** Requests to start a track, and requests to seek. *)
Definition is_play (k : Call) : bool :=
  match k with PlaybackPlay _ => true | _ => false end.

Definition is_seek (k : Call) : bool :=
  match k with PlaybackSeek _ => true | _ => false end.

(** ** Handlers: read the core, log the calls, return or raise *)

Definition Cmd (A : Type) : Type := Core -> list Call * result A.

Definition ret {A : Type} (a : A) : Cmd A := fun _ => ([], Ok a).

Definition raise {A : Type} (e : exn) : Cmd A := fun _ => ([], Raise e).

Definition lift {A : Type} (r : result A) : Cmd A := fun _ => ([], r).

Definition bind {A B : Type} (m : Cmd A) (f : A -> Cmd B) : Cmd B :=
  fun c =>
    match m c with
    | (log, Ok a) => let (log', r) := f a c in (log ++ log', r)
    | (log, Raise e) => (log, Raise e)
    end.

(** [try: body except IndexError: handler] *)
Definition try_except_IndexError {A : Type} (body handler : Cmd A) : Cmd A :=
  fun c =>
    match body c with
    | (log, Raise IndexError) => let (log', r) := handler c in (log ++ log', r)
    | done => done
    end.

(** [actor.method(...).get()] *)
Definition call {A : Type} (k : Call) (answer : Core -> A) : Cmd A :=
  fun c => ([k], Ok (answer c)).

Declare Scope cmd_scope.
Delimit Scope cmd_scope with cmd.
Notation "x <- m ;; k" := (bind m (fun x => k))
  (at level 100, m at next level, right associativity) : cmd_scope.
Notation "m ;; k" := (bind m (fun _ => k))
  (at level 100, right associativity) : cmd_scope.
Open Scope cmd_scope.

Definition calls {A : Type} (m : Cmd A) (c : Core) : list Call := fst (m c).
Definition outcome {A : Type} (m : Cmd A) (c : Core) : result A := snd (m c).

(** [context.core.playback] *)
Module playback.
Definition get_state : Cmd PlaybackState := call PlaybackGetState state.
Definition get_current_tl_track : Cmd (option TlTrack) :=
  call PlaybackGetCurrentTlTrack current_tl_track.
Definition get_current_tlid : Cmd (option Z) :=
  call PlaybackGetCurrentTlid (fun c => option_map tlid (current_tl_track c)).
Definition get_time_position : Cmd Z :=
  call PlaybackGetTimePosition time_position.
Definition play (tlid : option Z) : Cmd unit :=
  call (PlaybackPlay tlid) (fun _ => tt).
Definition pause : Cmd unit := call PlaybackPause (fun _ => tt).
Definition resume : Cmd unit := call PlaybackResume (fun _ => tt).
Definition seek (time_position : Z) : Cmd unit :=
  call (PlaybackSeek time_position) (fun _ => tt).
End playback.

(** [context.core.tracklist].  Mopidy's tracklist controller answers
    [slice(start, end)] with the Python slice [_tl_tracks[start:end]],
    [filter] with the tracks that match, in tracklist order, and [index]
    with the position of the track, or [None]. *)
Module tracklist.
Definition slice (start stop : Z) : Cmd (list TlTrack) :=
  call (TracklistSlice start stop) (fun c => Py.slice (tl_tracks c) start stop).
(** [filter({"tlid": [tlid]})] *)
Definition filter_tlid (id : Z) : Cmd (list TlTrack) :=
  call (TracklistFilterTlid id)
       (fun c => filter (fun t => tlid t =? id) (tl_tracks c)).
Definition index (tl_track : option TlTrack) : Cmd (option Z) :=
  call (TracklistIndex tl_track)
       (fun c => match tl_track with
                 | Some t => Py.index TlTrack_eqb (tl_tracks c) t
                 | None => None
                 end).
End tracklist.

(** [context.core.mixer] *)
Module mixer.
Definition get_volume : Cmd (option Z) := call MixerGetVolume mixer_volume.
Definition set_volume (volume : Z) : Cmd bool :=
  call (MixerSetVolume volume) (fun c => mixer_accepts c volume).
End mixer.

(** ** The command handlers *)

(** [pause(context, state=None)] *)
Definition pause (state : option bool) : Cmd unit :=
  match state with
  | None =>
      playback_state <- playback.get_state ;;
      match playback_state with
      | PLAYING => playback.pause
      | PAUSED => playback.resume
      | STOPPED => ret tt
      end
  | Some true => playback.pause
  | Some false => playback.resume
  end.

Definition _play_minus_one : Cmd unit :=
  playback_state <- playback.get_state ;;
  match playback_state with
  | PLAYING => ret tt
  | PAUSED => playback.resume
  | STOPPED =>
      current_tlid <- playback.get_current_tlid ;;
      match current_tlid with
      | Some current_tlid => playback.play (Some current_tlid)
      | None =>
          tl_tracks <- tracklist.slice 0 1 ;;
          match tl_tracks with
          | tl_track :: _ => playback.play (Some (tlid tl_track))
          | [] => ret tt
          end
      end
  end.

(** [play(context, songpos=None)] *)
Definition play (songpos : option Z) : Cmd unit :=
  match songpos with
  | None => playback.play None
  | Some songpos =>
      if songpos =? -1 then _play_minus_one
      else
        try_except_IndexError
          (tl_tracks <- tracklist.slice songpos (songpos + 1) ;;
           tl_track <- lift (Py.item0 tl_tracks) ;;
           playback.play (Some (tlid tl_track)))
          (raise (MpdArgError "Bad song index"))
  end.

(** [playid(context, tlid)] *)
Definition playid (songid : Z) : Cmd unit :=
  if songid =? -1 then _play_minus_one
  else
    tl_tracks <- tracklist.filter_tlid songid ;;
    match tl_tracks with
    | [] => raise (MpdNoExistError "No such song")
    | tl_track :: _ => playback.play (Some (tlid tl_track))
    end.

(** [position != songpos], where [position] may be [None] *)
Definition differs (position : option Z) (songpos : Z) : bool :=
  match position with
  | Some i => negb (i =? songpos)
  | None => true
  end.

(** [DurationMs(int(seconds * 1000))] *)
Definition milliseconds (seconds : float) : result Z :=
  Py.int (seconds * 1000)%float.

(** [seek(context, songpos, seconds)] *)
Definition seek (songpos : Z) (seconds : float) : Cmd unit :=
  tl_track <- playback.get_current_tl_track ;;
  position <- tracklist.index tl_track ;;
  (if differs position songpos then play (Some songpos) else ret tt) ;;
  ms <- lift (milliseconds seconds) ;;
  playback.seek ms.

(** [seekid(context, tlid, seconds)] *)
Definition seekid (songid : Z) (seconds : float) : Cmd unit :=
  tl_track <- playback.get_current_tl_track ;;
  match tl_track with
  | None => playid songid
  | Some tl_track =>
      if negb (tlid tl_track =? songid) then playid songid else ret tt
  end ;;
  ms <- lift (milliseconds seconds) ;;
  playback.seek ms.

Section Seekcur.

(** The converters [protocol.FLOAT] and [protocol.UFLOAT] of
    [mopidy_mpd/protocol/__init__.py]: a float, or [ValueError]. *)
Variables FLOAT UFLOAT : string -> result float.

(** [seekcur(context, time)] *)
Definition seekcur (time : string) : Cmd unit :=
  if Py.startswith_sign time then
    position <- playback.get_time_position ;;
    seconds <- lift (FLOAT time) ;;
    offset <- lift (milliseconds seconds) ;;
    playback.seek (position + offset)
  else
    seconds <- lift (UFLOAT time) ;;
    position <- lift (milliseconds seconds) ;;
    playback.seek position.

End Seekcur.

(** [setvol(context, volume)] *)
Definition setvol (volume : Z) : Cmd unit :=
  let value := Z.min (Z.max 0 volume) 100 in
  success <- mixer.set_volume value ;;
  if negb success then raise (MpdSystemError "problems setting volume")
  else ret tt.

(** [volume(context, change)] *)
Definition volume (change : Z) : Cmd unit :=
  let min_volume_change := -100 in
  let max_volume_change := 100 in
  let min_volume := 0 in
  let max_volume := 100 in
  if (change <? min_volume_change) || (change >? max_volume_change) then
    raise (MpdArgError "Invalid volume value")
  else
    old_volume <- mixer.get_volume ;;
    match old_volume with
    | None => raise (MpdSystemError "problems setting volume")
    | Some old_volume =>
        let new_volume :=
          Z.min (Z.max min_volume (old_volume + change)) max_volume in
        success <- mixer.set_volume new_volume ;;
        if negb success then raise (MpdSystemError "problems setting volume")
        else ret tt
    end.

(** ** The commands without an implementation *)

(** [crossfade(context, seconds)]; like the three below it is declared
    [-> Never]: it has no value to return. *)
Definition crossfade (seconds : Z) : Cmd Empty_set :=
  raise MpdNotImplementedError.

(** [mixrampdb(context, decibels)] *)
Definition mixrampdb (decibels : string) : Cmd Empty_set :=
  raise MpdNotImplementedError.

(** [mixrampdelay(context, seconds)] *)
Definition mixrampdelay (seconds : Z) : Cmd Empty_set :=
  raise MpdNotImplementedError.

(** [replay_gain_mode(context, mode)] *)
Definition replay_gain_mode (mode : string) : Cmd Empty_set :=
  raise MpdNotImplementedError.

(** [replay_gain_status(context)] *)
Definition replay_gain_status : Cmd (string * string) :=
  ret ("replay_gain_mode"%string, "off"%string).

(** ** Reading the converters of the examples *)

(** Modelled from the spec: [protocol.FLOAT] and [protocol.UFLOAT] are
    defined in [mopidy_mpd/protocol/__init__.py], outside the file verified
    here.  The specification has them parse a signed, respectively
    a non-negative, fractional-seconds value; [seekcur] above takes them as
    parameters.  The reader below covers plain decimal literals
    [[+-]digits[.digits]] of at most 15 digits, where the quotient of the two
    integers is the correctly rounded float that Python's [float] returns;
    it serves the worked examples only. *)
Definition digit_of (ch : ascii) : option Z :=
  let n := Z.of_N (N_of_ascii ch) in
  if (48 <=? n) && (n <=? 57) then Some (n - 48) else None.

Fixpoint read_digits (s : string) (num scale : Z) (dot : bool) (count : nat)
  : option (Z * Z * nat) :=
  match s with
  | EmptyString => Some (num, scale, count)
  | String ch s' =>
      if Ascii.eqb ch "." then
        if dot then None else read_digits s' num scale true count
      else
        match digit_of ch with
        | Some d =>
            read_digits s' (10 * num + d) (if dot then scale + 1 else scale)
                        dot (S count)
        | None => None
        end
  end.

Definition float_of_Z (n : Z) : float := of_uint63 (Uint63.of_Z n).

Definition read_float (s : string) : result float :=
  let '(negative, body) :=
    match s with
    | String "-" s' => (true, s')
    | String "+" s' => (false, s')
    | _ => (false, s)
    end in
  match read_digits body 0 0 false 0 with
  | Some (num, scale, count) =>
      if (1 <=? count)%nat && (count <=? 15)%nat then
        let x := (float_of_Z num / float_of_Z (10 ^ scale))%float in
        Ok (if negative then (- x)%float else x)
      else Raise ValueError
  | None => Raise ValueError
  end.

Definition decimal_FLOAT (value : string) : result float := read_float value.

Definition decimal_UFLOAT (value : string) : result float :=
  match read_float value with
  | Ok x => if (x <? 0)%float then Raise ValueError else Ok x
  | Raise e => Raise e
  end.

(** ** Words of the specification *)

(** [clamp(x, lo, hi)] *)
Definition clamp (x lo hi : Z) : Z :=
  if x <? lo then lo else if hi <? x then hi else x.

(** The position the specification asks for: [round(seconds * 1000)]. *)
Definition rounded_milliseconds (seconds : float) : result Z :=
  Py.round (seconds * 1000)%float.

(** The tracklist position of the currently loaded track, if it has one. *)
Definition current_position (c : Core) : option Z :=
  match current_tl_track c with
  | Some t => Py.index TlTrack_eqb (tl_tracks c) t
  | None => None
  end.

(** A volume handed to the mixer lies in [0 .. 100]. *)
Definition volume_in_range (k : Call) : Prop :=
  match k with
  | MixerSetVolume v => 0 <= v <= 100
  | _ => True
  end.

(** The rational a finite float stands for. *)
Definition float_value (x : float) : option (Z * Z) :=
  match Prim2SF x with
  | S754_zero _ => Some (0, 1)
  | S754_finite s m e =>
      let n := if s then Z.neg m else Z.pos m in
      Some (if 0 <=? e then (n * 2 ^ e, 1) else (n, 2 ^ (- e)))
  | _ => None
  end.

(** Worked examples: three tracks, nothing loaded, volume 80. *)
Definition three_tracks : Core :=
  mkCore STOPPED None 10000
         [mkTlTrack 10 "file:a"; mkTlTrack 11 "file:b"; mkTlTrack 12 "file:c"]
         (Some 80) (fun _ => true).

(** The same tracks with the first one playing. *)
Definition first_playing : Core :=
  mkCore PLAYING (Some (mkTlTrack 10 "file:a")) 10000 (tl_tracks three_tracks)
         (Some 80) (fun _ => true).

(** ** Shapes of a call log *)

(** The calls that only ask an actor for a value; the others ask it to do
    something. *)
Definition is_query (k : Call) : bool :=
  match k with
  | PlaybackGetState | PlaybackGetCurrentTlid | PlaybackGetCurrentTlTrack
  | PlaybackGetTimePosition | TracklistSlice _ _ | TracklistFilterTlid _
  | TracklistIndex _ | MixerGetVolume => true
  | PlaybackPlay _ | PlaybackPause | PlaybackResume | PlaybackSeek _
  | MixerSetVolume _ => false
  end.

Definition is_request (k : Call) : bool := negb (is_query k).

Definition is_mixer_call (k : Call) : bool :=
  match k with
  | MixerGetVolume | MixerSetVolume _ => true
  | _ => false
  end.

(** No query comes after a request. *)
Fixpoint queries_first (log : list Call) : bool :=
  match log with
  | [] => true
  | k :: log' =>
      if is_query k then queries_first log' else forallb is_request log'
  end.

(** A seek goes to a position that is not negative. *)
Definition seek_to_nonnegative (k : Call) : Prop :=
  match k with
  | PlaybackSeek ms => 0 <= ms
  | _ => True
  end.

(** The same outcome with the opposite number. *)
Definition negated (r : result Z) : result Z :=
  match r with
  | Ok z => Ok (- z)
  | Raise e => Raise e
  end.

(** The same tracks with the second one loaded and paused. *)
Definition second_paused : Core :=
  mkCore PAUSED (Some (mkTlTrack 11 "file:b")) 2500 (tl_tracks three_tracks)
         (Some 40) (fun _ => true).

(** ** Facts about the Python values *)

(** Unfolds the actor calls and the sequencing of a handler. *)
Ltac run_handler :=
  cbv [calls outcome bind call raise ret lift
       playback.get_state playback.get_current_tl_track
       playback.get_current_tlid playback.get_time_position playback.play
       playback.pause playback.resume playback.seek
       tracklist.slice tracklist.filter_tlid tracklist.index
       mixer.get_volume mixer.set_volume fst snd].

Lemma firstn_one_skipn {A : Type} (l : list A) (n : nat) :
  firstn 1 (skipn n l) =
  match nth_error l n with Some x => [x] | None => [] end.
Proof.
  revert l; induction n as [|n IH]; intros [|x l]; try reflexivity.
  exact (IH l).
Qed.

(** [l[p:p+1]] for a position counted from the front. *)
Lemma slice_one_from_front {A : Type} (l : list A) (p : Z) :
  0 <= p ->
  Py.slice l p (p + 1) =
  match nth_error l (Z.to_nat p) with Some x => [x] | None => [] end.
Proof.
  intros Hp. unfold Py.slice, Py.adjust_index.
  destruct (Z.ltb_spec p 0); [lia|].
  destruct (Z.ltb_spec (p + 1) 0); [lia|].
  set (len := Z.of_nat (List.length l)).
  destruct (Z_lt_le_dec p len) as [Hlt|Hge].
  - replace (Z.max 0 (Z.min (p + 1) len) - Z.max 0 (Z.min p len)) with 1 by lia.
    replace (Z.max 0 (Z.min p len)) with p by lia.
    apply firstn_one_skipn.
  - replace (Z.max 0 (Z.min (p + 1) len) - Z.max 0 (Z.min p len)) with 0 by lia.
    simpl.
    assert (Hnone : nth_error l (Z.to_nat p) = None).
    { apply nth_error_None. unfold len in Hge. lia. }
    now rewrite Hnone.
Qed.

(** [l[0:1]] *)
Lemma slice_first {A : Type} (l : list A) :
  Py.slice l 0 1 = match l with x :: _ => [x] | [] => [] end.
Proof.
  change (Py.slice l 0 1) with (Py.slice l 0 (0 + 1)).
  rewrite slice_one_from_front by lia. now destruct l.
Qed.

(** [l[p:p+1]] for a position counted from the end, the last one apart. *)
Lemma slice_one_from_end {A : Type} (l : list A) (p : Z) :
  p < -1 ->
  Py.slice l p (p + 1) =
  if - Z.of_nat (List.length l) <=? p then
    match nth_error l (Z.to_nat (Z.of_nat (List.length l) + p)) with
    | Some x => [x]
    | None => []
    end
  else [].
Proof.
  intros Hp. unfold Py.slice, Py.adjust_index.
  destruct (Z.ltb_spec p 0); [|lia].
  destruct (Z.ltb_spec (p + 1) 0); [|lia].
  set (len := Z.of_nat (List.length l)).
  destruct (Z.leb_spec (- len) p) as [Hin|Hout].
  - replace (Z.max 0 (Z.min (p + 1 + len) len) - Z.max 0 (Z.min (p + len) len))
      with 1 by lia.
    replace (Z.max 0 (Z.min (p + len) len)) with (len + p) by lia.
    apply firstn_one_skipn.
  - replace (Z.max 0 (Z.min (p + 1 + len) len) - Z.max 0 (Z.min (p + len) len))
      with 0 by lia.
    reflexivity.
Qed.

(** The source's [min(max(lo, x), hi)] is the specification's clamp. *)
Lemma min_max_is_clamp (x : Z) : Z.min (Z.max 0 x) 100 = clamp x 0 100.
Proof.
  unfold clamp.
  destruct (Z.ltb_spec x 0); [lia|].
  destruct (Z.ltb_spec 100 x); lia.
Qed.

Lemma clamp_in_range (x : Z) : 0 <= clamp x 0 100 <= 100.
Proof.
  unfold clamp.
  destruct (Z.ltb_spec x 0); [lia|].
  destruct (Z.ltb_spec 100 x); lia.
Qed.

(** [int] drops the fractional part: it is the quotient, rounded toward
    zero, of the fraction the float stands for. *)
Lemma int_truncates (x : float) (z : Z) :
  Py.int x = Ok z ->
  exists n d, float_value x = Some (n, d) /\ 0 < d /\ z = n ÷ d.
Proof.
  unfold Py.int, float_value.
  destruct (Prim2SF x) as [s|s| |s m e]; try discriminate.
  - intros [= <-]. exists 0, 1. repeat split; lia.
  - intros [= <-].
    destruct (Z.leb_spec 0 e) as [He|He].
    + exists ((if s then Z.neg m else Z.pos m) * 2 ^ e), 1.
      repeat split; try lia.
      rewrite Z.quot_1_r. destruct s; [|reflexivity].
      change (Z.neg m) with (- Z.pos m). now rewrite Z.mul_opp_l.
    + exists (if s then Z.neg m else Z.pos m), (2 ^ (- e)).
      assert (Hd : 0 < 2 ^ (- e)) by (apply Z.pow_pos_nonneg; lia).
      repeat split; auto.
      destruct s.
      * change (Z.neg m) with (- Z.pos m).
        rewrite Z.quot_opp_l by lia.
        rewrite Z.quot_div_nonneg by lia. reflexivity.
      * rewrite Z.quot_div_nonneg by lia. reflexivity.
Qed.

(** ** The volume commands *)

Lemma setvol_run (c : Core) (v : Z) :
  setvol v c =
    ([MixerSetVolume (clamp v 0 100)],
     if mixer_accepts c (clamp v 0 100) then Ok tt
     else Raise (MpdSystemError "problems setting volume")).
Proof.
  unfold setvol. run_handler. rewrite min_max_is_clamp.
  destruct (mixer_accepts c (clamp v 0 100)); reflexivity.
Qed.

(** C8: for every integer [v], [setvol v] hands [clamp v 0 100] to the
    mixer in its only call, and raises the system error exactly when the
    mixer answers that call with [False]; otherwise it returns. *)
Theorem setvol_clamps_and_reports (c : Core) (v : Z) :
  calls (setvol v) c = [MixerSetVolume (clamp v 0 100)] /\
  outcome (setvol v) c =
    (if mixer_accepts c (clamp v 0 100) then Ok tt
     else Raise (MpdSystemError "problems setting volume")).
Proof.
  unfold calls, outcome. rewrite setvol_run. split; reflexivity.
Qed.

(** The two cases the specification works out: [setvol(150)] sets 100 and
    [setvol(-10)] sets 0. *)
Example setvol_150_and_minus_10 :
  setvol 150 three_tracks = ([MixerSetVolume 100], Ok tt) /\
  setvol (-10) three_tracks = ([MixerSetVolume 0], Ok tt).
Proof. split; reflexivity. Qed.

(** C3: [volume change] with [change] outside [-100 .. 100] raises the
    argument error with no call on the mixer at all; inside that range a
    volume that reads as [None] raises the system error after the one
    query; otherwise the mixer is asked for [clamp (current + change) 0 100]
    and the system error is raised when it refuses. *)
Theorem volume_checks_then_sets (c : Core) (change : Z) :
  (change < -100 \/ 100 < change ->
   volume change c = ([], Raise (MpdArgError "Invalid volume value"))) /\
  (-100 <= change <= 100 ->
   mixer_volume c = None ->
   volume change c =
     ([MixerGetVolume], Raise (MpdSystemError "problems setting volume"))) /\
  (-100 <= change <= 100 ->
   forall current, mixer_volume c = Some current ->
   let new_volume := clamp (current + change) 0 100 in
   volume change c =
     ([MixerGetVolume; MixerSetVolume new_volume],
      if mixer_accepts c new_volume then Ok tt
      else Raise (MpdSystemError "problems setting volume"))).
Proof.
  unfold volume. run_handler.
  destruct (Z.ltb_spec change (-100)) as [Hlo|Hlo];
    destruct (Z.gtb_spec change 100) as [Hhi|Hhi]; simpl;
    repeat split; intros; try lia; try reflexivity.
  - rewrite H0. reflexivity.
  - rewrite H0. rewrite min_max_is_clamp.
    destruct (mixer_accepts c _); reflexivity.
Qed.

Lemma volume_checks_then_sets_witness :
  volume (-200) three_tracks =
    ([], Raise (MpdArgError "Invalid volume value")) /\
  volume 50
    (mkCore PLAYING None 0 [] None (fun _ => true)) =
    ([MixerGetVolume], Raise (MpdSystemError "problems setting volume")) /\
  volume 50 three_tracks = ([MixerGetVolume; MixerSetVolume 100], Ok tt) /\
  volume 50
    (mkCore PLAYING None 0 [] (Some 80) (fun _ => false)) =
    ([MixerGetVolume; MixerSetVolume 100],
     Raise (MpdSystemError "problems setting volume")).
Proof.
  split; [|split; [|split]].
  - apply (proj1 (volume_checks_then_sets three_tracks (-200))). lia.
  - apply (proj1 (proj2 (volume_checks_then_sets
                           (mkCore PLAYING None 0 [] None (fun _ => true)) 50)));
      [lia | reflexivity].
  - apply (proj2 (proj2 (volume_checks_then_sets three_tracks 50))
             ltac:(lia) 80 eq_refl).
  - apply (proj2 (proj2 (volume_checks_then_sets
                           (mkCore PLAYING None 0 [] (Some 80) (fun _ => false))
                           50))
             ltac:(lia) 80 eq_refl).
Defined.

(** C9: whatever the input and whatever volume the mixer reports, every
    volume that [setvol] or [volume] hands to [set_volume] lies in
    [0 .. 100]. *)
Theorem set_volume_always_in_range (c : Core) (x : Z) :
  Forall volume_in_range (calls (setvol x) c) /\
  Forall volume_in_range (calls (volume x) c).
Proof.
  split.
  - unfold calls. rewrite setvol_run.
    repeat constructor; apply clamp_in_range.
  - unfold volume. run_handler.
    destruct ((x <? -100) || (x >? 100)); simpl; [constructor|].
    destruct (mixer_volume c) as [old|]; simpl.
    + rewrite min_max_is_clamp.
      destruct (mixer_accepts c _); simpl;
        repeat constructor; apply clamp_in_range.
    + repeat constructor.
Qed.

(** ** Pause, and play at the sentinel position *)

(** C6: [pause] without a state asks for the playback state and then pauses
    when playing, resumes when paused and does nothing more when stopped;
    [pause(True)] is the single call [pause()], [pause(False)] the single
    call [resume()]. *)
Theorem pause_toggles_or_obeys (c : Core) :
  (state c = PLAYING ->
   pause None c = ([PlaybackGetState; PlaybackPause], Ok tt)) /\
  (state c = PAUSED ->
   pause None c = ([PlaybackGetState; PlaybackResume], Ok tt)) /\
  (state c = STOPPED ->
   pause None c = ([PlaybackGetState], Ok tt)) /\
  pause (Some true) c = ([PlaybackPause], Ok tt) /\
  pause (Some false) c = ([PlaybackResume], Ok tt).
Proof.
  unfold pause. run_handler.
  repeat split; intros ->; reflexivity.
Qed.

Lemma pause_toggles_or_obeys_witness :
  pause None (mkCore PLAYING None 0 [] None (fun _ => true)) =
    ([PlaybackGetState; PlaybackPause], Ok tt) /\
  pause None (mkCore PAUSED None 0 [] None (fun _ => true)) =
    ([PlaybackGetState; PlaybackResume], Ok tt) /\
  pause None three_tracks = ([PlaybackGetState], Ok tt).
Proof.
  split; [|split].
  - apply (proj1 (pause_toggles_or_obeys
                    (mkCore PLAYING None 0 [] None (fun _ => true)))).
    reflexivity.
  - apply (proj1 (proj2 (pause_toggles_or_obeys
                           (mkCore PAUSED None 0 [] None (fun _ => true))))).
    reflexivity.
  - apply (proj1 (proj2 (proj2 (pause_toggles_or_obeys three_tracks)))).
    reflexivity.
Defined.

Lemma play_minus_one_is_sentinel (c : Core) :
  play (Some (-1)) c = _play_minus_one c /\
  playid (-1) c = _play_minus_one c.
Proof. split; reflexivity. Qed.

(** C1: [play(-1)] and [playid(-1)] are the same action.  When playing it
    ends after the state query; when paused it issues the one call
    [resume()]; when stopped with a current track it plays that track's
    tlid; when stopped with none it plays the tlid of the track at
    position 0, or, the tracklist being empty, returns without an error and
    without a call to [play]. *)
Theorem play_minus_one_resumes_or_continues (c : Core) :
  playid (-1) c = play (Some (-1)) c /\
  (state c = PLAYING ->
   play (Some (-1)) c = ([PlaybackGetState], Ok tt)) /\
  (state c = PAUSED ->
   play (Some (-1)) c = ([PlaybackGetState; PlaybackResume], Ok tt)) /\
  (state c = STOPPED ->
   forall current, current_tl_track c = Some current ->
   play (Some (-1)) c =
     ([PlaybackGetState; PlaybackGetCurrentTlid;
       PlaybackPlay (Some (tlid current))], Ok tt)) /\
  (state c = STOPPED ->
   current_tl_track c = None ->
   forall first, nth_error (tl_tracks c) 0 = Some first ->
   play (Some (-1)) c =
     ([PlaybackGetState; PlaybackGetCurrentTlid; TracklistSlice 0 1;
       PlaybackPlay (Some (tlid first))], Ok tt)) /\
  (state c = STOPPED ->
   current_tl_track c = None ->
   tl_tracks c = [] ->
   play (Some (-1)) c =
     ([PlaybackGetState; PlaybackGetCurrentTlid; TracklistSlice 0 1], Ok tt)).
Proof.
  destruct (play_minus_one_is_sentinel c) as [-> ->].
  unfold _play_minus_one. run_handler.
  split; [reflexivity|].
  repeat split; intros Hs; rewrite Hs.
  - reflexivity.
  - reflexivity.
  - intros current ->. reflexivity.
  - intros -> first Hfirst. cbn [option_map]. rewrite slice_first.
    destruct (tl_tracks c) as [|t l]; [discriminate|].
    injection Hfirst as ->. reflexivity.
  - intros -> Hempty. cbn [option_map]. rewrite Hempty. reflexivity.
Qed.

Lemma play_minus_one_resumes_or_continues_witness :
  play (Some (-1)) (mkCore PLAYING None 0 [] None (fun _ => true)) =
    ([PlaybackGetState], Ok tt) /\
  play (Some (-1)) (mkCore PAUSED None 0 [] None (fun _ => true)) =
    ([PlaybackGetState; PlaybackResume], Ok tt) /\
  play (Some (-1))
    (mkCore STOPPED (Some (mkTlTrack 12 "file:c")) 0 (tl_tracks three_tracks)
            None (fun _ => true)) =
    ([PlaybackGetState; PlaybackGetCurrentTlid; PlaybackPlay (Some 12)],
     Ok tt) /\
  play (Some (-1)) three_tracks =
    ([PlaybackGetState; PlaybackGetCurrentTlid; TracklistSlice 0 1;
      PlaybackPlay (Some 10)], Ok tt) /\
  play (Some (-1)) (mkCore STOPPED None 0 [] None (fun _ => true)) =
    ([PlaybackGetState; PlaybackGetCurrentTlid; TracklistSlice 0 1], Ok tt).
Proof.
  repeat apply conj.
  - apply (proj1 (proj2 (play_minus_one_resumes_or_continues
                           (mkCore PLAYING None 0 [] None (fun _ => true))))).
    reflexivity.
  - apply (proj1 (proj2 (proj2 (play_minus_one_resumes_or_continues
                           (mkCore PAUSED None 0 [] None (fun _ => true)))))).
    reflexivity.
  - apply (proj1 (proj2 (proj2 (proj2 (play_minus_one_resumes_or_continues
             (mkCore STOPPED (Some (mkTlTrack 12 "file:c")) 0
                     (tl_tracks three_tracks) None (fun _ => true))))))
             eq_refl (mkTlTrack 12 "file:c") eq_refl).
  - apply (proj1 (proj2 (proj2 (proj2 (proj2
             (play_minus_one_resumes_or_continues three_tracks)))))
             eq_refl eq_refl (mkTlTrack 10 "file:a") eq_refl).
  - apply (proj2 (proj2 (proj2 (proj2 (proj2
             (play_minus_one_resumes_or_continues
                (mkCore STOPPED None 0 [] None (fun _ => true)))))))
             eq_refl eq_refl eq_refl).
Defined.

(** ** Play at a position *)

Lemma play_run (c : Core) (p : Z) :
  p <> -1 ->
  play (Some p) c =
  match Py.slice (tl_tracks c) p (p + 1) with
  | t :: _ => ([TracklistSlice p (p + 1); PlaybackPlay (Some (tlid t))], Ok tt)
  | [] => ([TracklistSlice p (p + 1)], Raise (MpdArgError "Bad song index"))
  end.
Proof.
  intros Hp. unfold play.
  destruct (Z.eqb_spec p (-1)) as [|_]; [contradiction|].
  unfold try_except_IndexError. run_handler.
  destruct (Py.slice (tl_tracks c) p (p + 1)); reflexivity.
Qed.

Lemma play_past_end (c : Core) (p : Z) :
  Z.of_nat (List.length (tl_tracks c)) <= p ->
  play (Some p) c =
    ([TracklistSlice p (p + 1)], Raise (MpdArgError "Bad song index")).
Proof.
  intros Hpast. rewrite play_run by lia.
  rewrite slice_one_from_front by lia.
  assert (Hnone : nth_error (tl_tracks c) (Z.to_nat p) = None).
  { apply nth_error_None. lia. }
  now rewrite Hnone.
Qed.

(** X18: for an integer [p >= 0], [play p] looks up the
    track at tracklist position [p]; when there is one, playback starts at
    its tlid, and when [p] is past the end the argument error is raised
    and [play] is not called on the actor. *)
Theorem play_position_in_or_out_of_range (c : Core) (p : Z) :
  0 <= p ->
  let len := Z.of_nat (List.length (tl_tracks c)) in
  (p < len ->
   exists t, nth_error (tl_tracks c) (Z.to_nat p) = Some t /\
     play (Some p) c =
       ([TracklistSlice p (p + 1); PlaybackPlay (Some (tlid t))], Ok tt)) /\
  (len <= p ->
   play (Some p) c =
     ([TracklistSlice p (p + 1)], Raise (MpdArgError "Bad song index"))).
Proof.
  intros Hp len. split.
  - intros Hin. rewrite play_run by lia.
    rewrite slice_one_from_front by lia.
    destruct (nth_error (tl_tracks c) (Z.to_nat p)) as [t|] eqn:Hnth.
    + exists t. split; reflexivity.
    + apply nth_error_None in Hnth. unfold len in Hin. lia.
  - apply play_past_end.
Qed.

Lemma play_position_in_or_out_of_range_witness :
  (exists t, nth_error (tl_tracks three_tracks) 2 = Some t /\
     play (Some 2) three_tracks =
       ([TracklistSlice 2 3; PlaybackPlay (Some (tlid t))], Ok tt)) /\
  play (Some 3) three_tracks =
    ([TracklistSlice 3 4], Raise (MpdArgError "Bad song index")).
Proof.
  split.
  - apply (proj1 (play_position_in_or_out_of_range three_tracks 2 ltac:(lia))).
    simpl; lia.
  - apply (proj2 (play_position_in_or_out_of_range three_tracks 3 ltac:(lia))).
    simpl; lia.
Defined.

(** A negative position other than [-1] is handed to the slice as it is,
    which counts it from the end: [play p] starts the track at position
    [len + p] when there is one, and raises the argument error only for
    [p < -len]. *)
Lemma play_position_from_end (c : Core) (p : Z) :
  p < -1 ->
  let len := Z.of_nat (List.length (tl_tracks c)) in
  (- len <= p ->
   exists t, nth_error (tl_tracks c) (Z.to_nat (len + p)) = Some t /\
     play (Some p) c =
       ([TracklistSlice p (p + 1); PlaybackPlay (Some (tlid t))], Ok tt)) /\
  (p < - len ->
   play (Some p) c =
     ([TracklistSlice p (p + 1)], Raise (MpdArgError "Bad song index"))).
Proof.
  intros Hp len. rewrite play_run by lia.
  rewrite slice_one_from_end by lia. fold len.
  split; intros Hin.
  - destruct (Z.leb_spec (- len) p); [|lia].
    destruct (nth_error (tl_tracks c) (Z.to_nat (len + p))) as [t|] eqn:Hnth.
    + exists t. split; reflexivity.
    + apply nth_error_None in Hnth. unfold len in *. lia.
  - destruct (Z.leb_spec (- len) p); [lia|reflexivity].
Qed.

(** C4: the handler breaks the claim at [play(-2)] on three tracks.  [-2]
    is negative and is not [-1], so the claim asks for the argument error
    and no call to [play]; the slice [-2 : -1] counts from the end, the
    [IndexError] guard does not fire, and playback starts at the second
    track.  The sibling [playid(-2)] does reject the negative number. *)
Theorem play_minus_two_starts_a_track :
  -2 <> -1 /\ -2 < 0 /\
  play (Some (-2)) three_tracks =
    ([TracklistSlice (-2) (-1); PlaybackPlay (Some 11)], Ok tt) /\
  outcome (play (Some (-2))) three_tracks <>
    Raise (MpdArgError "Bad song index") /\
  filter is_play (calls (play (Some (-2))) three_tracks) <> [] /\
  playid (-2) three_tracks =
    ([TracklistFilterTlid (-2)], Raise (MpdNoExistError "No such song")).
Proof.
  repeat split; try lia; discriminate.
Qed.

(** ** The handlers that seek *)

Lemma no_seek_in (log : list Call) (k : Z) :
  filter is_seek log = [] -> ~ In (PlaybackSeek k) log.
Proof.
  intros Hnone Hin.
  assert (Hf : In (PlaybackSeek k) (filter is_seek log))
    by (apply filter_In; split; [assumption|reflexivity]).
  rewrite Hnone in Hf. contradiction.
Qed.

Lemma _play_minus_one_never_seeks (c : Core) :
  filter is_seek (calls _play_minus_one c) = [].
Proof.
  unfold _play_minus_one. run_handler.
  destruct (state c); try reflexivity.
  destruct (current_tl_track c); simpl; [reflexivity|].
  destruct (Py.slice (tl_tracks c) 0 1); reflexivity.
Qed.

Lemma play_never_seeks (songpos : option Z) (c : Core) :
  filter is_seek (calls (play songpos) c) = [].
Proof.
  destruct songpos as [p|]; [|reflexivity].
  destruct (Z.eq_dec p (-1)) as [->|Hp].
  - apply _play_minus_one_never_seeks.
  - unfold calls. rewrite (play_run c p Hp).
    destruct (Py.slice (tl_tracks c) p (p + 1)); reflexivity.
Qed.

Lemma playid_never_seeks (songid : Z) (c : Core) :
  filter is_seek (calls (playid songid) c) = [].
Proof.
  unfold playid. destruct (songid =? -1).
  - apply _play_minus_one_never_seeks.
  - run_handler.
    destruct (filter (fun t => tlid t =? songid) (tl_tracks c)); reflexivity.
Qed.

(** What [seek] does, in terms of what [play] does. *)
Lemma seek_run (c : Core) (songpos : Z) (seconds : float) :
  seek songpos seconds c =
  let lookup := [PlaybackGetCurrentTlTrack; TracklistIndex (current_tl_track c)] in
  let switch :=
    if differs (current_position c) songpos then play (Some songpos) c
    else ([], Ok tt) in
  match snd switch, milliseconds seconds with
  | Ok _, Ok ms => (lookup ++ fst switch ++ [PlaybackSeek ms], Ok tt)
  | Ok _, Raise e => (lookup ++ fst switch, Raise e)
  | Raise e, _ => (lookup ++ fst switch, Raise e)
  end.
Proof.
  unfold seek, current_position. run_handler.
  destruct (differs _ songpos).
  - destruct (play (Some songpos) c) as [log [[]|e]]; simpl.
    + destruct (milliseconds seconds); simpl; [reflexivity|].
      now rewrite app_nil_r.
    + reflexivity.
  - simpl. destruct (milliseconds seconds); reflexivity.
Qed.

(** What [seekid] does, in terms of what [playid] does. *)
Lemma seekid_run (c : Core) (songid : Z) (seconds : float) :
  seekid songid seconds c =
  let switch :=
    match current_tl_track c with
    | None => playid songid c
    | Some t => if tlid t =? songid then ([], Ok tt) else playid songid c
    end in
  match snd switch, milliseconds seconds with
  | Ok _, Ok ms =>
      (PlaybackGetCurrentTlTrack :: fst switch ++ [PlaybackSeek ms], Ok tt)
  | Ok _, Raise e => (PlaybackGetCurrentTlTrack :: fst switch, Raise e)
  | Raise e, _ => (PlaybackGetCurrentTlTrack :: fst switch, Raise e)
  end.
Proof.
  unfold seekid. run_handler.
  assert (Hswitch : forall sw : list Call * result unit,
    (let (log', r) :=
       match sw with
       | (log, Ok _) =>
           let (log', r) :=
             match milliseconds seconds with
             | Ok a => ([PlaybackSeek a], Ok tt)
             | Raise e => ([], Raise e)
             end in (log ++ log', r)
       | (log, Raise e) => (log, Raise e)
       end in (PlaybackGetCurrentTlTrack :: log', r)) =
    match snd sw, milliseconds seconds with
    | Ok _, Ok ms => (PlaybackGetCurrentTlTrack :: fst sw ++ [PlaybackSeek ms], Ok tt)
    | Ok _, Raise e => (PlaybackGetCurrentTlTrack :: fst sw, Raise e)
    | Raise e, _ => (PlaybackGetCurrentTlTrack :: fst sw, Raise e)
    end).
  { intros [log [[]|e]]; simpl; [|reflexivity].
    destruct (milliseconds seconds); simpl; [reflexivity|].
    now rewrite app_nil_r. }
  destruct (current_tl_track c) as [t|]; [|apply Hswitch].
  destruct (tlid t =? songid); simpl; [|apply Hswitch].
  destruct (milliseconds seconds); reflexivity.
Qed.

Lemma differs_iff (position : option Z) (songpos : Z) :
  differs position songpos = true <-> position <> Some songpos.
Proof.
  destruct position as [i|]; simpl.
  - destruct (Z.eqb_spec i songpos) as [->|Hne]; simpl.
    + split; [discriminate|]. intros H; now contradiction H.
    + split; [|reflexivity]. intros _ [= ->]. now apply Hne.
  - split; [discriminate|reflexivity].
Qed.

(** C2: when the tracklist position of the loaded track is not [songpos],
    [seek] first performs [play(songpos)] and issues the seek after it, as
    the last call.  When that [play] raises, [seek] raises the same single
    exception right there and no seek is issued; in particular a [songpos]
    past the end of the tracklist gives the argument error after the
    lookups, with neither a play nor a seek call. *)
Theorem seek_switches_track_before_seeking
  (c : Core) (songpos : Z) (seconds : float) :
  current_position c <> Some songpos ->
  let lookup :=
    [PlaybackGetCurrentTlTrack; TracklistIndex (current_tl_track c)] in
  let switch := calls (play (Some songpos)) c in
  (exists rest,
     calls (seek songpos seconds) c = lookup ++ switch ++ rest /\
     filter is_seek (lookup ++ switch) = []) /\
  (forall ms,
     outcome (play (Some songpos)) c = Ok tt ->
     milliseconds seconds = Ok ms ->
     seek songpos seconds c = (lookup ++ switch ++ [PlaybackSeek ms], Ok tt)) /\
  (forall e,
     outcome (play (Some songpos)) c = Raise e ->
     seek songpos seconds c = (lookup ++ switch, Raise e) /\
     filter is_seek (calls (seek songpos seconds) c) = []) /\
  (Z.of_nat (List.length (tl_tracks c)) <= songpos ->
   seek songpos seconds c =
     (lookup ++ [TracklistSlice songpos (songpos + 1)],
      Raise (MpdArgError "Bad song index"))).
Proof.
  intros Hdiff lookup switch.
  apply differs_iff in Hdiff.
  assert (Hquiet : filter is_seek (lookup ++ switch) = []).
  { rewrite filter_app. unfold switch. rewrite play_never_seeks. reflexivity. }
  assert (Hrun : seek songpos seconds c =
    match outcome (play (Some songpos)) c, milliseconds seconds with
    | Ok _, Ok ms => (lookup ++ switch ++ [PlaybackSeek ms], Ok tt)
    | Ok _, Raise e => (lookup ++ switch, Raise e)
    | Raise e, _ => (lookup ++ switch, Raise e)
    end).
  { rewrite seek_run, Hdiff. reflexivity. }
  split; [|split; [|split]].
  - unfold calls at 1. rewrite Hrun.
    destruct (outcome (play (Some songpos)) c) as [u|e].
    + destruct (milliseconds seconds) as [ms|e].
      * exists [PlaybackSeek ms]. split; [reflexivity|exact Hquiet].
      * exists []. rewrite app_nil_r. split; [reflexivity|exact Hquiet].
    + exists []. rewrite app_nil_r. split; [reflexivity|exact Hquiet].
  - intros ms Hplay Hms. rewrite Hrun, Hplay, Hms. reflexivity.
  - intros e Hplay. unfold calls at 1. rewrite Hrun, Hplay.
    split; [reflexivity|]. exact Hquiet.
  - intros Hpast. rewrite Hrun. unfold switch, outcome, calls.
    rewrite play_past_end by assumption. reflexivity.
Qed.

(** The case the specification works out, [seek(2, 1.5)] while the track
    at position 0 is the current one, and a [songpos] past the end. *)
Lemma seek_switches_track_before_seeking_witness :
  seek 2 1.5%float first_playing =
    ([PlaybackGetCurrentTlTrack;
      TracklistIndex (Some (mkTlTrack 10 "file:a"));
      TracklistSlice 2 3; PlaybackPlay (Some 12); PlaybackSeek 1500],
     Ok tt) /\
  seek 5 1.5%float first_playing =
    ([PlaybackGetCurrentTlTrack;
      TracklistIndex (Some (mkTlTrack 10 "file:a")); TracklistSlice 5 6],
     Raise (MpdArgError "Bad song index")) /\
  filter is_seek (calls (seek 5 1.5%float) first_playing) = [].
Proof.
  assert (Hdiff2 : current_position first_playing <> Some 2) by discriminate.
  assert (Hdiff5 : current_position first_playing <> Some 5) by discriminate.
  split; [|split].
  - apply (proj1 (proj2 (seek_switches_track_before_seeking
                           first_playing 2 1.5%float Hdiff2))
                 1500 eq_refl eq_refl).
  - apply (proj1 (proj1 (proj2 (proj2 (seek_switches_track_before_seeking
                                         first_playing 5 1.5%float Hdiff5)))
                        (MpdArgError "Bad song index") eq_refl)).
  - apply (proj2 (proj1 (proj2 (proj2 (seek_switches_track_before_seeking
                                         first_playing 5 1.5%float Hdiff5)))
                        (MpdArgError "Bad song index") eq_refl)).
Defined.

(** On the current track's own position no [play] is issued. *)
Example seek_on_current_position :
  seek 0 1.5%float first_playing =
    ([PlaybackGetCurrentTlTrack;
      TracklistIndex (Some (mkTlTrack 10 "file:a")); PlaybackSeek 1500],
     Ok tt).
Proof. reflexivity. Qed.

(** C10: with no track loaded, [seekid] performs [playid(tlid)] right after
    asking for the current track, and the seek, if any, comes after it.
    When [playid] raises, so does [seekid], without a seek; for a [tlid]
    (non-negative, as the [UINT] converter makes it) that no track of the
    tracklist carries, that is the not-found error after the one lookup. *)
Theorem seekid_without_current_track_plays_first
  (c : Core) (songid : Z) (seconds : float) :
  current_tl_track c = None ->
  let switch := calls (playid songid) c in
  (exists rest,
     calls (seekid songid seconds) c =
       PlaybackGetCurrentTlTrack :: switch ++ rest /\
     filter is_seek (PlaybackGetCurrentTlTrack :: switch) = []) /\
  (forall ms,
     outcome (playid songid) c = Ok tt ->
     milliseconds seconds = Ok ms ->
     seekid songid seconds c =
       (PlaybackGetCurrentTlTrack :: switch ++ [PlaybackSeek ms], Ok tt)) /\
  (forall e,
     outcome (playid songid) c = Raise e ->
     seekid songid seconds c =
       (PlaybackGetCurrentTlTrack :: switch, Raise e)) /\
  (0 <= songid ->
   (forall t, In t (tl_tracks c) -> tlid t <> songid) ->
   seekid songid seconds c =
     ([PlaybackGetCurrentTlTrack; TracklistFilterTlid songid],
      Raise (MpdNoExistError "No such song"))).
Proof.
  intros Hnone switch.
  assert (Hrun : seekid songid seconds c =
    match outcome (playid songid) c, milliseconds seconds with
    | Ok _, Ok ms =>
        (PlaybackGetCurrentTlTrack :: switch ++ [PlaybackSeek ms], Ok tt)
    | Ok _, Raise e => (PlaybackGetCurrentTlTrack :: switch, Raise e)
    | Raise e, _ => (PlaybackGetCurrentTlTrack :: switch, Raise e)
    end).
  { rewrite seekid_run, Hnone. reflexivity. }
  split; [|split; [|split]].
  - assert (Hquiet : filter is_seek (PlaybackGetCurrentTlTrack :: switch) = []).
    { simpl. unfold switch. apply playid_never_seeks. }
    unfold calls at 1. rewrite Hrun.
    destruct (outcome (playid songid) c) as [u|e].
    + destruct (milliseconds seconds) as [ms|e].
      * exists [PlaybackSeek ms]. split; [reflexivity|exact Hquiet].
      * exists []. rewrite app_nil_r. split; [reflexivity|exact Hquiet].
    + exists []. rewrite app_nil_r. split; [reflexivity|exact Hquiet].
  - intros ms Hplay Hms. rewrite Hrun, Hplay, Hms. reflexivity.
  - intros e Hplay. rewrite Hrun, Hplay. reflexivity.
  - intros Hpos Habsent. rewrite Hrun. unfold switch, outcome, calls, playid.
    destruct (Z.eqb_spec songid (-1)); [lia|].
    run_handler.
    assert (Hnil : filter (fun t => tlid t =? songid) (tl_tracks c) = []).
    { induction (tl_tracks c) as [|t l IH]; [reflexivity|]. simpl.
      destruct (Z.eqb_spec (tlid t) songid) as [Heq|_].
      - exfalso. apply (Habsent t); [now left|exact Heq].
      - apply IH. intros t' Hin. apply Habsent. now right. }
    rewrite Hnil. reflexivity.
Qed.

Lemma seekid_without_current_track_plays_first_witness :
  seekid 11 1.5%float three_tracks =
    ([PlaybackGetCurrentTlTrack; TracklistFilterTlid 11;
      PlaybackPlay (Some 11); PlaybackSeek 1500], Ok tt) /\
  seekid 13 1.5%float three_tracks =
    ([PlaybackGetCurrentTlTrack; TracklistFilterTlid 13],
     Raise (MpdNoExistError "No such song")).
Proof.
  split.
  - apply (proj1 (proj2 (seekid_without_current_track_plays_first
                           three_tracks 11 1.5%float eq_refl)) 1500);
      reflexivity.
  - apply (proj2 (proj2 (proj2 (seekid_without_current_track_plays_first
                                  three_tracks 13 1.5%float eq_refl)))).
    + lia.
    + simpl. intros t [<-|[<-|[<-|[]]]]; simpl; lia.
Defined.

(** ** Seek positions *)

Section SeekcurFacts.

Variables FLOAT UFLOAT : string -> result float.

Lemma seekcur_relative_run (c : Core) (time : string) :
  Py.startswith_sign time = true ->
  seekcur FLOAT UFLOAT time c =
  match FLOAT time with
  | Ok s =>
      match milliseconds s with
      | Ok offset =>
          ([PlaybackGetTimePosition; PlaybackSeek (time_position c + offset)],
           Ok tt)
      | Raise e => ([PlaybackGetTimePosition], Raise e)
      end
  | Raise e => ([PlaybackGetTimePosition], Raise e)
  end.
Proof.
  intros Hsign. unfold seekcur. rewrite Hsign. run_handler.
  destruct (FLOAT time) as [s|e]; [|reflexivity].
  destruct (milliseconds s); reflexivity.
Qed.

Lemma seekcur_absolute_run (c : Core) (time : string) :
  Py.startswith_sign time = false ->
  seekcur FLOAT UFLOAT time c =
  match UFLOAT time with
  | Ok s =>
      match milliseconds s with
      | Ok position => ([PlaybackSeek position], Ok tt)
      | Raise e => ([], Raise e)
      end
  | Raise e => ([], Raise e)
  end.
Proof.
  intros Hsign. unfold seekcur. rewrite Hsign. run_handler.
  destruct (UFLOAT time) as [s|e]; [|reflexivity].
  destruct (milliseconds s); reflexivity.
Qed.

End SeekcurFacts.

Lemma seek_calls_of_seek (c : Core) (songpos : Z) (s : float) (ms : Z) :
  milliseconds s = Ok ms ->
  filter is_seek (calls (seek songpos s) c) =
  match outcome (seek songpos s) c with
  | Ok _ => [PlaybackSeek ms]
  | Raise _ => []
  end.
Proof.
  intros Hms. unfold calls, outcome. rewrite seek_run, Hms. cbv zeta.
  set (switch := if differs (current_position c) songpos
                 then play (Some songpos) c else ([], Ok tt)).
  assert (Hquiet : filter is_seek (fst switch) = []).
  { unfold switch. destruct (differs _ songpos); [|reflexivity].
    apply play_never_seeks. }
  destruct (snd switch); simpl; rewrite ?filter_app, Hquiet; reflexivity.
Qed.

Lemma seek_calls_of_seekid (c : Core) (songid : Z) (s : float) (ms : Z) :
  milliseconds s = Ok ms ->
  filter is_seek (calls (seekid songid s) c) =
  match outcome (seekid songid s) c with
  | Ok _ => [PlaybackSeek ms]
  | Raise _ => []
  end.
Proof.
  intros Hms. unfold calls, outcome. rewrite seekid_run, Hms. cbv zeta.
  set (switch := match current_tl_track c with
                 | None => playid songid c
                 | Some t =>
                     if tlid t =? songid then ([], Ok tt) else playid songid c
                 end).
  assert (Hquiet : filter is_seek (fst switch) = []).
  { unfold switch. destruct (current_tl_track c) as [t|].
    - destruct (tlid t =? songid); [reflexivity|]. apply playid_never_seeks.
    - apply playid_never_seeks. }
  destruct (snd switch); simpl; rewrite ?filter_app, Hquiet; reflexivity.
Qed.

(** C5, as the code has it: the position handed to the playback actor is
    [int(seconds * 1000)], the float product with its fractional part
    dropped, that is the quotient rounded toward zero of the fraction the
    product stands for.  [seek] and [seekid] issue exactly that seek when
    they return and none when they raise; [seekcur] seeks to it, added to
    the elapsed position when [time] carries a sign. *)
Theorem seek_position_is_truncated (c : Core) (s : float) (ms : Z) :
  milliseconds s = Ok ms ->
  (exists n d,
     float_value (s * 1000)%float = Some (n, d) /\ 0 < d /\ ms = n ÷ d) /\
  (forall songpos,
     filter is_seek (calls (seek songpos s) c) =
     match outcome (seek songpos s) c with
     | Ok _ => [PlaybackSeek ms]
     | Raise _ => []
     end) /\
  (forall songid,
     filter is_seek (calls (seekid songid s) c) =
     match outcome (seekid songid s) c with
     | Ok _ => [PlaybackSeek ms]
     | Raise _ => []
     end) /\
  (forall FLOAT UFLOAT time,
     Py.startswith_sign time = true ->
     FLOAT time = Ok s ->
     seekcur FLOAT UFLOAT time c =
       ([PlaybackGetTimePosition; PlaybackSeek (time_position c + ms)],
        Ok tt)) /\
  (forall FLOAT UFLOAT time,
     Py.startswith_sign time = false ->
     UFLOAT time = Ok s ->
     seekcur FLOAT UFLOAT time c = ([PlaybackSeek ms], Ok tt)).
Proof.
  intros Hms. repeat apply conj.
  - apply int_truncates. exact Hms.
  - intros songpos. now apply seek_calls_of_seek.
  - intros songid. now apply seek_calls_of_seekid.
  - intros FLOAT UFLOAT time Hsign Hparse.
    rewrite seekcur_relative_run by assumption. now rewrite Hparse, Hms.
  - intros FLOAT UFLOAT time Hsign Hparse.
    rewrite seekcur_absolute_run by assumption. now rewrite Hparse, Hms.
Qed.

Lemma seek_position_is_truncated_witness :
  (exists n d,
     float_value (1.0009765625 * 1000)%float = Some (n, d) /\
     0 < d /\ 1000 = n ÷ d) /\
  filter is_seek (calls (seek 0 1.0009765625%float) three_tracks) =
    [PlaybackSeek 1000] /\
  filter is_seek (calls (seekid 10 1.0009765625%float) three_tracks) =
    [PlaybackSeek 1000] /\
  seekcur decimal_FLOAT decimal_UFLOAT "+1.0009765625" three_tracks =
    ([PlaybackGetTimePosition; PlaybackSeek 11000], Ok tt) /\
  seekcur decimal_FLOAT decimal_UFLOAT "1.0009765625" three_tracks =
    ([PlaybackSeek 1000], Ok tt).
Proof.
  pose proof (seek_position_is_truncated
                three_tracks 1.0009765625%float 1000 eq_refl)
    as (Hvalue & Hseek & Hseekid & Hrelative & Habsolute).
  repeat apply conj.
  - exact Hvalue.
  - exact (Hseek 0).
  - exact (Hseekid 10).
  - apply (Hrelative decimal_FLOAT decimal_UFLOAT "+1.0009765625"%string);
      reflexivity.
  - apply (Habsolute decimal_FLOAT decimal_UFLOAT "1.0009765625"%string);
      reflexivity.
Defined.

(** C5 as the specification words it fails at 1.0009765625 seconds, a value
    and a product that binary floats hold exactly: the product is
    1000.9765625, which rounds to 1001, and every seek operation hands 1000
    to the actor. *)
Lemma seek_position_rounded_counterexample :
  rounded_milliseconds 1.0009765625%float = Ok 1001 /\
  seek 0 1.0009765625%float three_tracks =
    ([PlaybackGetCurrentTlTrack; TracklistIndex None; TracklistSlice 0 1;
      PlaybackPlay (Some 10); PlaybackSeek 1000], Ok tt) /\
  seekid 10 1.0009765625%float three_tracks =
    ([PlaybackGetCurrentTlTrack; TracklistFilterTlid 10;
      PlaybackPlay (Some 10); PlaybackSeek 1000], Ok tt) /\
  seekcur decimal_FLOAT decimal_UFLOAT "+1.0009765625" three_tracks =
    ([PlaybackGetTimePosition; PlaybackSeek (10000 + 1000)], Ok tt) /\
  seekcur decimal_FLOAT decimal_UFLOAT "1.0009765625" three_tracks =
    ([PlaybackSeek 1000], Ok tt).
Proof. repeat split. Qed.

(** The same with a value that is not exact in binary: 1.9999 seconds seek
    to 1999, where rounding gives 2000. *)
Example seekcur_1_9999 :
  seekcur decimal_FLOAT decimal_UFLOAT "1.9999" three_tracks =
    ([PlaybackSeek 1999], Ok tt) /\
  match decimal_UFLOAT "1.9999" with
  | Ok s => rounded_milliseconds s
  | Raise e => Raise e
  end = Ok 2000.
Proof. split; reflexivity. Qed.

(** C7: [seekcur] never calls [play].  When [time] starts with ['+'] or
    ['-'] and parses to an offset, the seek goes to the elapsed position
    plus the signed offset in milliseconds, a negative sum included as it
    is; otherwise it goes to the parsed value in milliseconds, on every
    core alike. *)
Theorem seekcur_relative_or_absolute
  (FLOAT UFLOAT : string -> result float) (c : Core) (time : string) :
  filter is_play (calls (seekcur FLOAT UFLOAT time) c) = [] /\
  (Py.startswith_sign time = true ->
   forall s offset,
     FLOAT time = Ok s ->
     milliseconds s = Ok offset ->
     seekcur FLOAT UFLOAT time c =
       ([PlaybackGetTimePosition; PlaybackSeek (time_position c + offset)],
        Ok tt)) /\
  (Py.startswith_sign time = false ->
   forall s position,
     UFLOAT time = Ok s ->
     milliseconds s = Ok position ->
     forall c' : Core,
       seekcur FLOAT UFLOAT time c' = ([PlaybackSeek position], Ok tt)).
Proof.
  repeat apply conj.
  - unfold calls. destruct (Py.startswith_sign time) eqn:Hsign.
    + rewrite seekcur_relative_run by assumption.
      destruct (FLOAT time) as [s|e]; [|reflexivity].
      destruct (milliseconds s); reflexivity.
    + rewrite seekcur_absolute_run by assumption.
      destruct (UFLOAT time) as [s|e]; [|reflexivity].
      destruct (milliseconds s); reflexivity.
  - intros Hsign s offset Hparse Hms.
    rewrite seekcur_relative_run by assumption. now rewrite Hparse, Hms.
  - intros Hsign s position Hparse Hms c'.
    rewrite seekcur_absolute_run by assumption. now rewrite Hparse, Hms.
Qed.

(** The cases the specification works out, from an elapsed position of
    10000 ms, and a relative seek that ends below zero. *)
Lemma seekcur_relative_or_absolute_witness :
  seekcur decimal_FLOAT decimal_UFLOAT "+5.0" three_tracks =
    ([PlaybackGetTimePosition; PlaybackSeek 15000], Ok tt) /\
  seekcur decimal_FLOAT decimal_UFLOAT "-5.0" three_tracks =
    ([PlaybackGetTimePosition; PlaybackSeek 5000], Ok tt) /\
  seekcur decimal_FLOAT decimal_UFLOAT "-15.0" three_tracks =
    ([PlaybackGetTimePosition; PlaybackSeek (-5000)], Ok tt) /\
  (forall c : Core,
     seekcur decimal_FLOAT decimal_UFLOAT "20" c =
       ([PlaybackSeek 20000], Ok tt)).
Proof.
  repeat apply conj.
  - apply (proj1 (proj2 (seekcur_relative_or_absolute
             decimal_FLOAT decimal_UFLOAT three_tracks "+5.0"))
             eq_refl 5%float 5000 eq_refl eq_refl).
  - apply (proj1 (proj2 (seekcur_relative_or_absolute
             decimal_FLOAT decimal_UFLOAT three_tracks "-5.0"))
             eq_refl (-5)%float (-5000) eq_refl eq_refl).
  - apply (proj1 (proj2 (seekcur_relative_or_absolute
             decimal_FLOAT decimal_UFLOAT three_tracks "-15.0"))
             eq_refl (-15)%float (-15000) eq_refl eq_refl).
  - apply (proj2 (proj2 (seekcur_relative_or_absolute
             decimal_FLOAT decimal_UFLOAT three_tracks "20"))
             eq_refl 20%float 20000 eq_refl eq_refl).
Defined.

(** ** Play by tracklist id, and play from the end *)

Lemma filter_tlid_sound (l : list TlTrack) (songid : Z) (t : TlTrack)
  (rest : list TlTrack) :
  filter (fun t => tlid t =? songid) l = t :: rest -> tlid t = songid.
Proof.
  intros Hf.
  assert (Hin : In t (filter (fun t => tlid t =? songid) l))
    by (rewrite Hf; now left).
  apply filter_In in Hin. lia.
Qed.

Lemma filter_tlid_empty (l : list TlTrack) (songid : Z) :
  filter (fun t => tlid t =? songid) l = [] <->
  (forall t, In t l -> tlid t <> songid).
Proof.
  split.
  - intros Hf t Hin Heq.
    assert (Hin' : In t (filter (fun t => tlid t =? songid) l))
      by (apply filter_In; split; [assumption|lia]).
    rewrite Hf in Hin'. contradiction.
  - intros Habsent.
    destruct (filter (fun t => tlid t =? songid) l) as [|t rest] eqn:Hf;
      [reflexivity|].
    assert (Hin : In t (filter (fun t => tlid t =? songid) l))
      by (rewrite Hf; now left).
    apply filter_In in Hin. destruct Hin as [Hin Heq].
    exfalso. apply (Habsent t Hin). lia.
Qed.

Lemma playid_run (c : Core) (songid : Z) :
  songid <> -1 ->
  playid songid c =
  match filter (fun t => tlid t =? songid) (tl_tracks c) with
  | [] =>
      ([TracklistFilterTlid songid], Raise (MpdNoExistError "No such song"))
  | _ :: _ =>
      ([TracklistFilterTlid songid; PlaybackPlay (Some songid)], Ok tt)
  end.
Proof.
  intros Hid. unfold playid.
  destruct (Z.eqb_spec songid (-1)) as [|_]; [contradiction|].
  run_handler.
  destruct (filter _ (tl_tracks c)) as [|t rest] eqn:Hf; [reflexivity|].
  now rewrite (filter_tlid_sound _ _ _ _ Hf).
Qed.

(** X1: for a tlid other than [-1], [playid] starts playback at exactly
    the id it was given when some track of the tracklist carries it, and
    raises the not-found error, without a request to the playback actor,
    when none does. *)
Theorem playid_plays_the_id_or_reports (c : Core) (songid : Z) :
  songid <> -1 ->
  ((exists t, In t (tl_tracks c) /\ tlid t = songid) ->
   playid songid c =
     ([TracklistFilterTlid songid; PlaybackPlay (Some songid)], Ok tt)) /\
  ((forall t, In t (tl_tracks c) -> tlid t <> songid) ->
   playid songid c =
     ([TracklistFilterTlid songid], Raise (MpdNoExistError "No such song"))).
Proof.
  intros Hid. rewrite (playid_run c songid Hid). split.
  - intros (t & Hin & Heq).
    destruct (filter _ (tl_tracks c)) eqn:Hf; [|reflexivity].
    exfalso. now apply (proj1 (filter_tlid_empty _ _) Hf t Hin).
  - intros Habsent.
    now rewrite (proj2 (filter_tlid_empty _ _) Habsent).
Qed.

Lemma playid_plays_the_id_or_reports_witness :
  playid 12 three_tracks =
    ([TracklistFilterTlid 12; PlaybackPlay (Some 12)], Ok tt) /\
  playid 7 three_tracks =
    ([TracklistFilterTlid 7], Raise (MpdNoExistError "No such song")).
Proof.
  split.
  - apply (proj1 (playid_plays_the_id_or_reports three_tracks 12 ltac:(lia))).
    exists (mkTlTrack 12 "file:c"). split; [simpl; tauto|reflexivity].
  - apply (proj2 (playid_plays_the_id_or_reports three_tracks 7 ltac:(lia))).
    simpl. intros t [<-|[<-|[<-|[]]]]; simpl; lia.
Defined.

(** X2: [play] by position and [playid] by id agree: for the track at
    position [p >= 0], whose tlid is not the sentinel [-1], [play p] and
    [playid] of that tlid both return and make the same single request to
    the playback actor. *)
Theorem play_and_playid_agree (c : Core) (p : Z) (t : TlTrack) :
  0 <= p ->
  nth_error (tl_tracks c) (Z.to_nat p) = Some t ->
  tlid t <> -1 ->
  filter is_request (calls (play (Some p)) c) =
    [PlaybackPlay (Some (tlid t))] /\
  filter is_request (calls (playid (tlid t)) c) =
    [PlaybackPlay (Some (tlid t))] /\
  outcome (play (Some p)) c = Ok tt /\
  outcome (playid (tlid t)) c = Ok tt.
Proof.
  intros Hp Hnth Hid. unfold calls, outcome.
  rewrite play_run by lia. rewrite slice_one_from_front, Hnth by lia.
  rewrite playid_run by assumption.
  destruct (filter _ (tl_tracks c)) eqn:Hf.
  - exfalso. apply (proj1 (filter_tlid_empty _ _) Hf t); [|reflexivity].
    eapply nth_error_In; eassumption.
  - repeat split.
Qed.

Lemma play_and_playid_agree_witness :
  filter is_request (calls (play (Some 1)) three_tracks) =
    [PlaybackPlay (Some 11)] /\
  filter is_request (calls (playid 11) three_tracks) =
    [PlaybackPlay (Some 11)] /\
  outcome (play (Some 1)) three_tracks = Ok tt /\
  outcome (playid 11) three_tracks = Ok tt.
Proof.
  apply (play_and_playid_agree three_tracks 1 (mkTlTrack 11 "file:b"));
    [lia | reflexivity | simpl; lia].
Defined.

Lemma play_position_from_end_witness :
  (exists t, nth_error (tl_tracks three_tracks) 0 = Some t /\
     play (Some (-3)) three_tracks =
       ([TracklistSlice (-3) (-2); PlaybackPlay (Some (tlid t))], Ok tt)) /\
  play (Some (-4)) three_tracks =
    ([TracklistSlice (-4) (-3)], Raise (MpdArgError "Bad song index")).
Proof.
  split.
  - apply (proj1 (play_position_from_end three_tracks (-3) ltac:(lia))).
    simpl; lia.
  - apply (proj2 (play_position_from_end three_tracks (-4) ltac:(lia))).
    simpl; lia.
Defined.

Lemma _play_minus_one_returns (c : Core) :
  snd (_play_minus_one c) = Ok tt.
Proof.
  unfold _play_minus_one. run_handler.
  destruct (state c); try reflexivity.
  destruct (current_tl_track c); simpl; [reflexivity|].
  destruct (Py.slice (tl_tracks c) 0 1); reflexivity.
Qed.

Lemma play_outcome (songpos : option Z) (c : Core) :
  play songpos c = (calls (play songpos) c, Ok tt) \/
  (exists p, songpos = Some p /\ p <> -1 /\
     Py.slice (tl_tracks c) p (p + 1) = [] /\
     play songpos c =
       ([TracklistSlice p (p + 1)], Raise (MpdArgError "Bad song index"))).
Proof.
  destruct songpos as [p|]; [|left; reflexivity].
  destruct (Z.eq_dec p (-1)) as [->|Hp].
  - left. unfold calls. change (play (Some (-1)) c) with (_play_minus_one c).
    rewrite (surjective_pairing (_play_minus_one c)) at 1.
    f_equal. apply _play_minus_one_returns.
  - unfold calls. rewrite play_run by assumption.
    destruct (Py.slice (tl_tracks c) p (p + 1)) eqn:Hslice.
    + right. exists p. repeat split; assumption.
    + left. reflexivity.
Qed.

(** X4: whatever its argument, [play] either returns or raises the
    argument error "Bad song index", nothing else: the [IndexError] of the
    empty slice never leaves it.  It raises only for a position other than
    [-1] whose slice of the tracklist is empty, and then after the one
    lookup, with no request made. *)
Theorem play_raises_only_bad_index (songpos : option Z) (c : Core) (e : exn) :
  outcome (play songpos) c = Raise e ->
  e = MpdArgError "Bad song index" /\
  exists p,
    songpos = Some p /\ p <> -1 /\
    Py.slice (tl_tracks c) p (p + 1) = [] /\
    calls (play songpos) c = [TracklistSlice p (p + 1)].
Proof.
  unfold outcome, calls.
  destruct (play_outcome songpos c) as [Hok|(p & Hsome & Hp & Hslice & Hrun)].
  - rewrite Hok. discriminate.
  - rewrite Hrun. intros [= <-]. split; [reflexivity|].
    exists p. repeat split; assumption.
Qed.

Lemma play_raises_only_bad_index_witness :
  MpdArgError "Bad song index" = MpdArgError "Bad song index" /\
  exists p,
    Some 3 = Some p /\ p <> -1 /\
    Py.slice (tl_tracks three_tracks) p (p + 1) = [] /\
    calls (play (Some 3)) three_tracks = [TracklistSlice p (p + 1)].
Proof.
  apply (play_raises_only_bad_index (Some 3) three_tracks
           (MpdArgError "Bad song index")).
  reflexivity.
Defined.

(** ** Seeking without a switch, and with seconds that have no position *)

Lemma differs_same (songpos : Z) : differs (Some songpos) songpos = false.
Proof. simpl. now rewrite Z.eqb_refl. Qed.

(** [int] raises only for an infinity or a NaN. *)
Lemma milliseconds_raises (s : float) (e : exn) :
  milliseconds s = Raise e -> e = OverflowError \/ e = ValueError.
Proof.
  unfold milliseconds, Py.int.
  destruct (Prim2SF (s * 1000)); intros [= <-]; auto.
Qed.

(** X5: on the position of the loaded track itself, [seek] does not call
    [play]: after the two lookups it seeks, or raises what [int] raises
    for seconds that have no integer position. *)
Theorem seek_on_the_current_position
  (c : Core) (songpos : Z) (seconds : float) :
  current_position c = Some songpos ->
  let lookup :=
    [PlaybackGetCurrentTlTrack; TracklistIndex (current_tl_track c)] in
  (forall ms,
     milliseconds seconds = Ok ms ->
     seek songpos seconds c = (lookup ++ [PlaybackSeek ms], Ok tt)) /\
  (forall e,
     milliseconds seconds = Raise e ->
     seek songpos seconds c = (lookup, Raise e)).
Proof.
  intros Hpos lookup. rewrite seek_run, Hpos, differs_same. cbv zeta.
  fold lookup. simpl fst. simpl snd. cbv iota.
  split; intros x Hms; rewrite Hms; [reflexivity|].
  now rewrite app_nil_r.
Qed.

Lemma seek_on_the_current_position_witness :
  seek 1 2.5%float second_paused =
    ([PlaybackGetCurrentTlTrack;
      TracklistIndex (Some (mkTlTrack 11 "file:b")); PlaybackSeek 2500],
     Ok tt) /\
  seek 1 nan second_paused =
    ([PlaybackGetCurrentTlTrack;
      TracklistIndex (Some (mkTlTrack 11 "file:b"))], Raise ValueError).
Proof.
  split.
  - apply (proj1 (seek_on_the_current_position second_paused 1 2.5%float
                    eq_refl) 2500 eq_refl).
  - apply (proj2 (seek_on_the_current_position second_paused 1 nan eq_refl)
             ValueError eq_refl).
Defined.

(** X6: with a track loaded, [seekid] calls [playid] exactly when that
    track's tlid is not the one asked for.  On the loaded track's own tlid
    it only seeks; on another one the calls of [playid] follow the lookup,
    and an exception of [playid] ends the command there. *)
Theorem seekid_with_a_current_track
  (c : Core) (songid : Z) (seconds : float) (t : TlTrack) :
  current_tl_track c = Some t ->
  (tlid t = songid ->
   forall ms,
     milliseconds seconds = Ok ms ->
     seekid songid seconds c =
       ([PlaybackGetCurrentTlTrack; PlaybackSeek ms], Ok tt)) /\
  (tlid t <> songid ->
   (forall ms,
      outcome (playid songid) c = Ok tt ->
      milliseconds seconds = Ok ms ->
      seekid songid seconds c =
        (PlaybackGetCurrentTlTrack :: calls (playid songid) c ++
           [PlaybackSeek ms], Ok tt)) /\
   (forall e,
      outcome (playid songid) c = Raise e ->
      seekid songid seconds c =
        (PlaybackGetCurrentTlTrack :: calls (playid songid) c, Raise e))).
Proof.
  intros Hcur. rewrite seekid_run, Hcur. cbv zeta. split.
  - intros Hsame ms Hms.
    destruct (Z.eqb_spec (tlid t) songid); [|contradiction].
    simpl fst. simpl snd. cbv iota. now rewrite Hms.
  - intros Hother.
    destruct (Z.eqb_spec (tlid t) songid); [contradiction|].
    unfold outcome, calls. split.
    + intros ms Hplay Hms. now rewrite Hplay, Hms.
    + intros e Hplay. now rewrite Hplay.
Qed.

Lemma seekid_with_a_current_track_witness :
  seekid 11 2.5%float second_paused =
    ([PlaybackGetCurrentTlTrack; PlaybackSeek 2500], Ok tt) /\
  seekid 12 2.5%float second_paused =
    ([PlaybackGetCurrentTlTrack; TracklistFilterTlid 12;
      PlaybackPlay (Some 12); PlaybackSeek 2500], Ok tt) /\
  seekid 7 2.5%float second_paused =
    ([PlaybackGetCurrentTlTrack; TracklistFilterTlid 7],
     Raise (MpdNoExistError "No such song")).
Proof.
  pose proof (seekid_with_a_current_track second_paused 11 2.5%float
                (mkTlTrack 11 "file:b") eq_refl) as [Hsame _].
  pose proof (seekid_with_a_current_track second_paused 12 2.5%float
                (mkTlTrack 11 "file:b") eq_refl) as [_ Hother].
  pose proof (seekid_with_a_current_track second_paused 7 2.5%float
                (mkTlTrack 11 "file:b") eq_refl) as [_ Habsent].
  split; [|split].
  - apply (Hsame eq_refl 2500 eq_refl).
  - apply (proj1 (Hother ltac:(simpl; lia)) 2500 eq_refl eq_refl).
  - apply (proj2 (Habsent ltac:(simpl; lia))
             (MpdNoExistError "No such song") eq_refl).
Defined.

(** X7: seconds whose product with 1000 is an infinity or a NaN have no
    integer position: [int] raises [OverflowError] or [ValueError].
    [seek] and [seekid] then issue no seek, but a track switch that was
    due has already been made when the exception leaves the handler. *)
Theorem seek_without_a_position_still_switches
  (c : Core) (seconds : float) (e : exn) :
  milliseconds seconds = Raise e ->
  (e = OverflowError \/ e = ValueError) /\
  (forall songpos,
     current_position c <> Some songpos ->
     outcome (play (Some songpos)) c = Ok tt ->
     seek songpos seconds c =
       ([PlaybackGetCurrentTlTrack; TracklistIndex (current_tl_track c)] ++
          calls (play (Some songpos)) c, Raise e)) /\
  (forall songid,
     (forall t, current_tl_track c = Some t -> tlid t <> songid) ->
     outcome (playid songid) c = Ok tt ->
     seekid songid seconds c =
       (PlaybackGetCurrentTlTrack :: calls (playid songid) c, Raise e)).
Proof.
  intros Hms. split; [exact (milliseconds_raises seconds e Hms)|]. split.
  - intros songpos Hdiff Hplay. apply differs_iff in Hdiff.
    rewrite seek_run, Hdiff. cbv zeta. unfold outcome, calls in *.
    now rewrite Hplay, Hms.
  - intros songid Hother Hplay.
    rewrite seekid_run. cbv zeta. unfold outcome, calls in *.
    destruct (current_tl_track c) as [t|].
    + destruct (Z.eqb_spec (tlid t) songid) as [Heq|_].
      * exfalso. now apply (Hother t).
      * now rewrite Hplay, Hms.
    + now rewrite Hplay, Hms.
Qed.

Lemma seek_without_a_position_still_switches_witness :
  seek 2 0x1p1020%float first_playing =
    ([PlaybackGetCurrentTlTrack;
      TracklistIndex (Some (mkTlTrack 10 "file:a"));
      TracklistSlice 2 3; PlaybackPlay (Some 12)], Raise OverflowError) /\
  seekid 12 0x1p1020%float first_playing =
    ([PlaybackGetCurrentTlTrack; TracklistFilterTlid 12;
      PlaybackPlay (Some 12)], Raise OverflowError).
Proof.
  pose proof (seek_without_a_position_still_switches
                first_playing 0x1p1020%float OverflowError eq_refl)
    as (_ & Hseek & Hseekid).
  split.
  - apply (Hseek 2); [discriminate|reflexivity].
  - apply (Hseekid 12); [|reflexivity].
    intros t [= <-]. simpl. lia.
Defined.

(** ** The sign of a seek position *)

(** Rounding a product keeps the sign it was given. *)
Lemma round_aux_sign (sx : bool) (m e : Z) (l : location) :
  match binary_round_aux prec emax sx m e l with
  | S754_zero s | S754_infinity s | S754_finite s _ _ => s = sx
  | S754_nan => True
  end.
Proof.
  unfold binary_round_aux.
  destruct (shr_fexp prec emax m e l) as [mrs' e'].
  destruct (shr_fexp prec emax _ e' loc_Exact) as [mrs'' e''].
  destruct (shr_m mrs''); trivial.
  destruct (e'' <=? emax - prec); reflexivity.
Qed.

Lemma round_aux_opp (sx : bool) (m e : Z) (l : location) :
  SFopp (binary_round_aux prec emax sx m e l) =
  binary_round_aux prec emax (negb sx) m e l.
Proof.
  unfold binary_round_aux.
  destruct (shr_fexp prec emax m e l) as [mrs' e'].
  destruct (shr_fexp prec emax _ e' loc_Exact) as [mrs'' e''].
  destruct (shr_m mrs''); trivial.
  destruct (e'' <=? emax - prec); reflexivity.
Qed.

Lemma SF64mul_opp_l (x y : spec_float) :
  SF64mul (SFopp x) y = SFopp (SF64mul x y).
Proof.
  unfold SF64mul.
  destruct x as [sx|sx| |sx mx ex], y as [sy|sy| |sy my ey]; simpl; trivial;
    try (now destruct sx, sy).
  rewrite round_aux_opp. now destruct sx, sy.
Qed.

(** [int(-s * 1000)] is [- int(s * 1000)]: dropping the fraction is
    symmetric around zero. *)
Lemma milliseconds_opp (s : float) :
  milliseconds (- s)%float = negated (milliseconds s).
Proof.
  unfold milliseconds, Py.int.
  rewrite !mul_spec, opp_spec, SF64mul_opp_l.
  destruct (SF64mul (Prim2SF s) (Prim2SF 1000)) as [sx|sx| |sx mx ex];
    simpl; trivial.
  destruct sx; simpl; f_equal; lia.
Qed.

Lemma magnitude_nonneg (m : positive) (e : Z) :
  0 <= (if 0 <=? e then Z.pos m * 2 ^ e else Z.pos m / 2 ^ (- e)).
Proof.
  destruct (Z.leb_spec 0 e).
  - apply Z.mul_nonneg_nonneg; [lia|]. apply Z.pow_nonneg. lia.
  - apply Z.div_pos; [lia|]. apply Z.pow_pos_nonneg; lia.
Qed.

(** Seconds that are not below zero have no position below zero. *)
Lemma milliseconds_nonneg (s : float) (ms : Z) :
  (s <? 0)%float = false -> milliseconds s = Ok ms -> 0 <= ms.
Proof.
  unfold milliseconds, Py.int. rewrite ltb_spec, mul_spec.
  change (Prim2SF 0) with (S754_zero false).
  assert (H1000 : exists m e, Prim2SF 1000 = S754_finite false m e).
  { vm_compute. eauto. }
  destruct H1000 as (m1 & e1 & ->).
  unfold SF64mul, SFltb, SFmul.
  destruct (Prim2SF s) as [sx|sx| |sx mx ex]; cbn [SFcompare xorb];
    try discriminate.
  - intros _ [= <-]. lia.
  - destruct sx; [discriminate|]. intros _.
    pose proof (round_aux_sign false (Z.pos (mx * m1)) (ex + e1) loc_Exact)
      as Hs.
    change (xorb false false) with false.
    destruct (binary_round_aux prec emax false (Z.pos (mx * m1)) (ex + e1)
                loc_Exact) as [sr|sr| |sr mr er]; try discriminate.
    + intros [= <-]. lia.
    + subst sr. intros [= <-]. apply magnitude_nonneg.
Qed.

Lemma seek_requests_of_seek (c : Core) (songpos : Z) (s : float) :
  filter is_seek (calls (seek songpos s) c) =
  match outcome (seek songpos s) c, milliseconds s with
  | Ok _, Ok ms => [PlaybackSeek ms]
  | _, _ => []
  end.
Proof.
  unfold calls, outcome. rewrite seek_run. cbv zeta.
  set (switch := if differs (current_position c) songpos
                 then play (Some songpos) c else ([], Ok tt)).
  assert (Hquiet : filter is_seek (fst switch) = []).
  { unfold switch. destruct (differs _ songpos); [|reflexivity].
    apply play_never_seeks. }
  destruct (snd switch); destruct (milliseconds s); simpl;
    rewrite ?filter_app, Hquiet; reflexivity.
Qed.

Lemma seek_requests_of_seekid (c : Core) (songid : Z) (s : float) :
  filter is_seek (calls (seekid songid s) c) =
  match outcome (seekid songid s) c, milliseconds s with
  | Ok _, Ok ms => [PlaybackSeek ms]
  | _, _ => []
  end.
Proof.
  unfold calls, outcome. rewrite seekid_run. cbv zeta.
  set (switch := match current_tl_track c with
                 | None => playid songid c
                 | Some t =>
                     if tlid t =? songid then ([], Ok tt) else playid songid c
                 end).
  assert (Hquiet : filter is_seek (fst switch) = []).
  { unfold switch. destruct (current_tl_track c) as [t|].
    - destruct (tlid t =? songid); [reflexivity|]. apply playid_never_seeks.
    - apply playid_never_seeks. }
  destruct (snd switch); destruct (milliseconds s); simpl;
    rewrite ?filter_app, Hquiet; reflexivity.
Qed.

Lemma nonnegative_seeks (log : list Call) :
  Forall seek_to_nonnegative (filter is_seek log) ->
  Forall seek_to_nonnegative log.
Proof.
  induction log as [|k log IH]; intros Hf; [constructor|].
  destruct k; simpl in Hf; try (constructor; [exact I|now apply IH]).
  inversion Hf; subst. constructor; [assumption|now apply IH].
Qed.

(** X8: with seconds that are not below zero, which is how the [UFLOAT]
    converter leaves them, no seek of [seek], of [seekid] or of the
    unsigned form of [seekcur] goes to a negative position. *)
Theorem unsigned_seeks_stay_nonnegative (c : Core) (seconds : float) :
  (seconds <? 0)%float = false ->
  (forall songpos,
     Forall seek_to_nonnegative (calls (seek songpos seconds) c)) /\
  (forall songid,
     Forall seek_to_nonnegative (calls (seekid songid seconds) c)) /\
  (forall FLOAT UFLOAT time,
     Py.startswith_sign time = false ->
     UFLOAT time = Ok seconds ->
     Forall seek_to_nonnegative (calls (seekcur FLOAT UFLOAT time) c)).
Proof.
  intros Hsign. repeat apply conj.
  - intros songpos. apply nonnegative_seeks. rewrite seek_requests_of_seek.
    destruct (outcome (seek songpos seconds) c); [|constructor].
    destruct (milliseconds seconds) as [ms|] eqn:Hms; repeat constructor.
    now apply (milliseconds_nonneg seconds).
  - intros songid. apply nonnegative_seeks. rewrite seek_requests_of_seekid.
    destruct (outcome (seekid songid seconds) c); [|constructor].
    destruct (milliseconds seconds) as [ms|] eqn:Hms; repeat constructor.
    now apply (milliseconds_nonneg seconds).
  - intros FLOAT UFLOAT time Habs Hparse. unfold calls.
    rewrite seekcur_absolute_run, Hparse by assumption.
    destruct (milliseconds seconds) as [ms|] eqn:Hms; repeat constructor.
    now apply (milliseconds_nonneg seconds).
Qed.

Lemma unsigned_seeks_stay_nonnegative_witness :
  Forall seek_to_nonnegative (calls (seek 2 2.5%float) first_playing) /\
  Forall seek_to_nonnegative (calls (seekid 12 2.5%float) first_playing) /\
  Forall seek_to_nonnegative
    (calls (seekcur decimal_FLOAT decimal_UFLOAT "2.5") first_playing).
Proof.
  pose proof (unsigned_seeks_stay_nonnegative first_playing 2.5%float eq_refl)
    as (Hseek & Hseekid & Hseekcur).
  split; [|split].
  - exact (Hseek 2).
  - exact (Hseekid 12).
  - apply (Hseekcur decimal_FLOAT decimal_UFLOAT "2.5"%string); reflexivity.
Defined.

(** X9: a signed [seekcur] moves back by exactly what the opposite offset
    moves forth: when one time converts to [s] and the other to [- s], the
    two seeks lie at the same distance on either side of the elapsed
    position. *)
Theorem seekcur_back_mirrors_forth
  (FLOAT UFLOAT : string -> result float) (c : Core)
  (forth back : string) (s : float) (offset : Z) :
  Py.startswith_sign forth = true ->
  Py.startswith_sign back = true ->
  FLOAT forth = Ok s ->
  FLOAT back = Ok (- s)%float ->
  milliseconds s = Ok offset ->
  seekcur FLOAT UFLOAT forth c =
    ([PlaybackGetTimePosition; PlaybackSeek (time_position c + offset)],
     Ok tt) /\
  seekcur FLOAT UFLOAT back c =
    ([PlaybackGetTimePosition; PlaybackSeek (time_position c - offset)],
     Ok tt).
Proof.
  intros Hforth Hback Hs Hopp Hms.
  rewrite !seekcur_relative_run by assumption.
  rewrite Hs, Hopp, milliseconds_opp, Hms. simpl.
  split; reflexivity.
Qed.

Lemma seekcur_back_mirrors_forth_witness :
  seekcur decimal_FLOAT decimal_UFLOAT "+1.9999" three_tracks =
    ([PlaybackGetTimePosition; PlaybackSeek (10000 + 1999)], Ok tt) /\
  seekcur decimal_FLOAT decimal_UFLOAT "-1.9999" three_tracks =
    ([PlaybackGetTimePosition; PlaybackSeek (10000 - 1999)], Ok tt).
Proof.
  refine (seekcur_back_mirrors_forth decimal_FLOAT decimal_UFLOAT three_tracks
            "+1.9999" "-1.9999" _ 1999 eq_refl eq_refl eq_refl eq_refl eq_refl).
Defined.

(** X10: [seekcur] hands on what a converter raises, and what [int] raises
    for a converted value without a position, and seeks nowhere.  For a
    signed time the elapsed position has been asked for by then; for an
    unsigned one no call has been made. *)
Theorem seekcur_hands_on_exceptions
  (FLOAT UFLOAT : string -> result float) (c : Core) (time : string)
  (e : exn) :
  (Py.startswith_sign time = true ->
   FLOAT time = Raise e \/
   (exists s, FLOAT time = Ok s /\ milliseconds s = Raise e) ->
   seekcur FLOAT UFLOAT time c = ([PlaybackGetTimePosition], Raise e)) /\
  (Py.startswith_sign time = false ->
   UFLOAT time = Raise e \/
   (exists s, UFLOAT time = Ok s /\ milliseconds s = Raise e) ->
   seekcur FLOAT UFLOAT time c = ([], Raise e)).
Proof.
  split; intros Hsign [Hparse|(s & Hparse & Hms)].
  - rewrite seekcur_relative_run by assumption. now rewrite Hparse.
  - rewrite seekcur_relative_run by assumption. now rewrite Hparse, Hms.
  - rewrite seekcur_absolute_run by assumption. now rewrite Hparse.
  - rewrite seekcur_absolute_run by assumption. now rewrite Hparse, Hms.
Qed.

Lemma seekcur_hands_on_exceptions_witness :
  seekcur decimal_FLOAT decimal_UFLOAT "+soon" three_tracks =
    ([PlaybackGetTimePosition], Raise ValueError) /\
  seekcur decimal_FLOAT decimal_UFLOAT "soon" three_tracks =
    ([], Raise ValueError) /\
  seekcur (fun _ => Ok infinity) (fun _ => Ok infinity) "+inf" three_tracks =
    ([PlaybackGetTimePosition], Raise OverflowError).
Proof.
  split; [|split].
  - apply (proj1 (seekcur_hands_on_exceptions decimal_FLOAT decimal_UFLOAT
                    three_tracks "+soon" ValueError) eq_refl).
    left; reflexivity.
  - apply (proj2 (seekcur_hands_on_exceptions decimal_FLOAT decimal_UFLOAT
                    three_tracks "soon" ValueError) eq_refl).
    left; reflexivity.
  - apply (proj1 (seekcur_hands_on_exceptions
                    (fun _ => Ok infinity) (fun _ => Ok infinity)
                    three_tracks "+inf" OverflowError) eq_refl).
    right. exists infinity. split; reflexivity.
Defined.

(** ** What the seek handlers can raise *)

Lemma playid_outcome (songid : Z) (c : Core) :
  outcome (playid songid) c = Ok tt \/
  outcome (playid songid) c = Raise (MpdNoExistError "No such song").
Proof.
  unfold outcome. destruct (Z.eq_dec songid (-1)) as [->|Hid].
  - left. apply _play_minus_one_returns.
  - rewrite playid_run by assumption.
    destruct (filter _ (tl_tracks c)); [right|left]; reflexivity.
Qed.

Lemma play_outcome_cases (songpos : option Z) (c : Core) :
  outcome (play songpos) c = Ok tt \/
  outcome (play songpos) c = Raise (MpdArgError "Bad song index").
Proof.
  unfold outcome.
  destruct (play_outcome songpos c) as [Hok|(p & _ & _ & _ & Hrun)].
  - left. now rewrite Hok.
  - right. now rewrite Hrun.
Qed.

Lemma seek_outcome (c : Core) (songpos : Z) (s : float) (e : exn) :
  outcome (seek songpos s) c = Raise e ->
  e = MpdArgError "Bad song index" \/ e = OverflowError \/ e = ValueError.
Proof.
  unfold outcome. rewrite seek_run. cbv zeta.
  assert (Hswitch :
    snd (if differs (current_position c) songpos
         then play (Some songpos) c else ([], Ok tt)) = Ok tt \/
    snd (if differs (current_position c) songpos
         then play (Some songpos) c else ([], Ok tt)) =
      Raise (MpdArgError "Bad song index")).
  { destruct (differs _ songpos); [|now left].
    apply play_outcome_cases. }
  destruct Hswitch as [-> | ->].
  - destruct (milliseconds s) eqn:Hms; [discriminate|].
    intros [= <-]. right. exact (milliseconds_raises s _ Hms).
  - intros [= <-]. now left.
Qed.

Lemma seekid_outcome (c : Core) (songid : Z) (s : float) (e : exn) :
  outcome (seekid songid s) c = Raise e ->
  e = MpdNoExistError "No such song" \/ e = OverflowError \/ e = ValueError.
Proof.
  unfold outcome. rewrite seekid_run. cbv zeta.
  set (switch := match current_tl_track c with
                 | None => playid songid c
                 | Some t =>
                     if tlid t =? songid then ([], Ok tt) else playid songid c
                 end).
  assert (Hswitch : snd switch = Ok tt \/
                    snd switch = Raise (MpdNoExistError "No such song")).
  { unfold switch. destruct (current_tl_track c) as [t|].
    - destruct (tlid t =? songid); [now left|]. apply playid_outcome.
    - apply playid_outcome. }
  destruct Hswitch as [-> | ->].
  - destruct (milliseconds s) eqn:Hms; [discriminate|].
    intros [= <-]. right. exact (milliseconds_raises s _ Hms).
  - intros [= <-]. now left.
Qed.

(** X11: [seek] raises nothing but the argument error of [play], or the
    [OverflowError] and [ValueError] of [int]; [seekid] nothing but the
    not-found error of [playid], or those two.  Whenever either raises, it
    has issued no seek. *)
Theorem seek_handlers_raise_only (c : Core) (seconds : float) (e : exn) :
  (forall songpos,
     outcome (seek songpos seconds) c = Raise e ->
     (e = MpdArgError "Bad song index" \/ e = OverflowError \/
      e = ValueError) /\
     filter is_seek (calls (seek songpos seconds) c) = []) /\
  (forall songid,
     outcome (seekid songid seconds) c = Raise e ->
     (e = MpdNoExistError "No such song" \/ e = OverflowError \/
      e = ValueError) /\
     filter is_seek (calls (seekid songid seconds) c) = []).
Proof.
  split.
  - intros songpos Hraise. split; [now apply (seek_outcome c songpos seconds)|].
    rewrite seek_requests_of_seek, Hraise. reflexivity.
  - intros songid Hraise.
    split; [now apply (seekid_outcome c songid seconds)|].
    rewrite seek_requests_of_seekid, Hraise. reflexivity.
Qed.

Lemma seek_handlers_raise_only_witness :
  ((MpdArgError "Bad song index" = MpdArgError "Bad song index" \/
    MpdArgError "Bad song index" = OverflowError \/
    MpdArgError "Bad song index" = ValueError) /\
   filter is_seek (calls (seek 9 2.5%float) three_tracks) = []) /\
  ((MpdNoExistError "No such song" = MpdNoExistError "No such song" \/
    MpdNoExistError "No such song" = OverflowError \/
    MpdNoExistError "No such song" = ValueError) /\
   filter is_seek (calls (seekid 9 2.5%float) three_tracks) = []).
Proof.
  split.
  - apply (proj1 (seek_handlers_raise_only three_tracks 2.5%float
                    (MpdArgError "Bad song index")) 9 eq_refl).
  - apply (proj2 (seek_handlers_raise_only three_tracks 2.5%float
                    (MpdNoExistError "No such song")) 9 eq_refl).
Defined.

(** ** Relative volume *)

Lemma volume_run (c : Core) (change : Z) :
  volume change c =
  if (change <? -100) || (change >? 100) then
    ([], Raise (MpdArgError "Invalid volume value"))
  else
    match mixer_volume c with
    | None =>
        ([MixerGetVolume], Raise (MpdSystemError "problems setting volume"))
    | Some old =>
        ([MixerGetVolume; MixerSetVolume (clamp (old + change) 0 100)],
         if mixer_accepts c (clamp (old + change) 0 100) then Ok tt
         else Raise (MpdSystemError "problems setting volume"))
    end.
Proof.
  unfold volume. run_handler.
  destruct ((change <? -100) || (change >? 100)); [reflexivity|].
  destruct (mixer_volume c) as [old|]; [|reflexivity]. simpl.
  rewrite min_max_is_clamp.
  destruct (mixer_accepts c _); reflexivity.
Qed.

Lemma change_in_range (change : Z) :
  -100 <= change <= 100 -> (change <? -100) || (change >? 100) = false.
Proof.
  intros H. destruct (Z.ltb_spec change (-100)); [lia|].
  destruct (Z.gtb_spec change 100); [lia|reflexivity].
Qed.

(** X12: with a change in [-100 .. 100] and a volume the mixer can report,
    [volume change] is the query followed by what [setvol] does with the
    sum: the same request to the mixer and the same outcome. *)
Theorem volume_is_setvol_of_the_sum (c : Core) (change old : Z) :
  -100 <= change <= 100 ->
  mixer_volume c = Some old ->
  volume change c =
    (MixerGetVolume :: calls (setvol (old + change)) c,
     outcome (setvol (old + change)) c).
Proof.
  intros Hchange Hold. unfold calls, outcome.
  rewrite volume_run, (change_in_range change Hchange), Hold, setvol_run.
  reflexivity.
Qed.

Lemma volume_is_setvol_of_the_sum_witness :
  volume 50 three_tracks =
    (MixerGetVolume :: calls (setvol (80 + 50)) three_tracks,
     outcome (setvol (80 + 50)) three_tracks).
Proof.
  apply (volume_is_setvol_of_the_sum three_tracks 50 80); [lia|reflexivity].
Defined.

(** X13: when the mixer reports a volume within [0 .. 100], [volume change]
    asks for a volume between the old one and the sum, so it never moves
    against the sign of the change nor further than the change; it asks
    for the sum itself when that is within [0 .. 100], and for the old
    volume when the change is 0. *)
Theorem volume_moves_with_the_change (c : Core) (change old : Z) :
  -100 <= change <= 100 ->
  mixer_volume c = Some old ->
  0 <= old <= 100 ->
  exists v,
    calls (volume change) c = [MixerGetVolume; MixerSetVolume v] /\
    Z.min old (old + change) <= v <= Z.max old (old + change) /\
    (0 <= old + change <= 100 -> v = old + change) /\
    (change = 0 -> v = old).
Proof.
  intros Hchange Hold Hrange. unfold calls.
  rewrite volume_run, (change_in_range change Hchange), Hold.
  exists (clamp (old + change) 0 100). split; [reflexivity|].
  unfold clamp.
  destruct (Z.ltb_spec (old + change) 0);
    [|destruct (Z.ltb_spec 100 (old + change))]; lia.
Qed.

Lemma volume_moves_with_the_change_witness :
  exists v,
    calls (volume (-30)) three_tracks = [MixerGetVolume; MixerSetVolume v] /\
    Z.min 80 (80 + -30) <= v <= Z.max 80 (80 + -30) /\
    (0 <= 80 + -30 <= 100 -> v = 80 + -30) /\
    (-30 = 0 -> v = 80).
Proof.
  apply (volume_moves_with_the_change three_tracks (-30) 80);
    [lia | reflexivity | lia].
Defined.

(** ** The shape of the call logs *)

Lemma queries_first_after_queries (reads log : list Call) :
  forallb is_query reads = true ->
  queries_first (reads ++ log) = queries_first log.
Proof.
  induction reads as [|k reads IH]; intros Hq; [reflexivity|].
  simpl in *. apply andb_prop in Hq as [Hk Hq]. rewrite Hk. now apply IH.
Qed.

Lemma queries_first_before_requests (log writes : list Call) :
  queries_first log = true ->
  forallb is_request writes = true ->
  queries_first (log ++ writes) = true.
Proof.
  induction log as [|k log IH]; intros Hlog Hw; simpl in *.
  - destruct writes as [|w writes]; [reflexivity|]. simpl in *.
    apply andb_prop in Hw as [Hw1 Hw2].
    unfold is_request in Hw1. apply negb_true_iff in Hw1.
    now rewrite Hw1.
  - destruct (is_query k); [now apply IH|].
    rewrite forallb_app, Hlog. exact Hw.
Qed.

Lemma count_app (f : Call -> bool) (a b : list Call) :
  List.length (filter f (a ++ b)) =
  (List.length (filter f a) + List.length (filter f b))%nat.
Proof. now rewrite filter_app, length_app. Qed.

(** Runs [_play_minus_one] through its cases on the core [c]. *)
Ltac by_cases_of_play c :=
  unfold _play_minus_one; run_handler;
  destruct (state c); try reflexivity;
  destruct (current_tl_track c); simpl; try reflexivity;
  destruct (Py.slice (tl_tracks c) 0 1); reflexivity.

Lemma play_log_is_tidy (songpos : option Z) (c : Core) :
  queries_first (calls (play songpos) c) = true /\
  (List.length (filter is_request (calls (play songpos) c)) <=? 1)%nat = true /\
  forallb (fun k => negb (is_mixer_call k)) (calls (play songpos) c) = true.
Proof.
  destruct songpos as [p|]; [|repeat split].
  destruct (Z.eq_dec p (-1)) as [->|Hp].
  - change (play (Some (-1))) with _play_minus_one.
    repeat split; by_cases_of_play c.
  - unfold calls. rewrite play_run by assumption.
    destruct (Py.slice (tl_tracks c) p (p + 1)); repeat split.
Qed.

Lemma playid_log_is_tidy (songid : Z) (c : Core) :
  queries_first (calls (playid songid) c) = true /\
  (List.length (filter is_request (calls (playid songid) c)) <=? 1)%nat
    = true /\
  forallb (fun k => negb (is_mixer_call k)) (calls (playid songid) c) = true.
Proof.
  destruct (Z.eq_dec songid (-1)) as [->|Hid].
  - change (playid (-1)) with _play_minus_one.
    repeat split; by_cases_of_play c.
  - unfold calls. rewrite playid_run by assumption.
    destruct (filter _ (tl_tracks c)); repeat split.
Qed.

(** The log of [seek]: two lookups, the log of [play] or nothing, and at
    most the seek. *)
Lemma seek_log (c : Core) (songpos : Z) (s : float) :
  exists switch rest,
    calls (seek songpos s) c =
      [PlaybackGetCurrentTlTrack; TracklistIndex (current_tl_track c)] ++
      switch ++ rest /\
    (switch = [] \/ switch = calls (play (Some songpos)) c) /\
    (rest = [] \/ exists ms, rest = [PlaybackSeek ms]).
Proof.
  unfold calls. rewrite seek_run. cbv zeta.
  set (sw := if differs (current_position c) songpos
             then play (Some songpos) c else ([], Ok tt)).
  exists (fst sw).
  assert (Hsw : fst sw = [] \/ fst sw = fst (play (Some songpos) c)).
  { unfold sw. destruct (differs _ songpos); [now right|now left]. }
  destruct (snd sw).
  - destruct (milliseconds s) as [ms|e].
    + exists [PlaybackSeek ms]. repeat split; eauto.
    + exists []. rewrite app_nil_r. repeat split; auto.
  - exists []. rewrite app_nil_r. repeat split; auto.
Qed.

Lemma seekid_log (c : Core) (songid : Z) (s : float) :
  exists switch rest,
    calls (seekid songid s) c =
      [PlaybackGetCurrentTlTrack] ++ switch ++ rest /\
    (switch = [] \/ switch = calls (playid songid) c) /\
    (rest = [] \/ exists ms, rest = [PlaybackSeek ms]).
Proof.
  unfold calls. rewrite seekid_run. cbv zeta.
  set (sw := match current_tl_track c with
             | None => playid songid c
             | Some t =>
                 if tlid t =? songid then ([], Ok tt) else playid songid c
             end).
  exists (fst sw).
  assert (Hsw : fst sw = [] \/ fst sw = fst (playid songid c)).
  { unfold sw. destruct (current_tl_track c) as [t|]; [|now right].
    destruct (tlid t =? songid); [now left|now right]. }
  destruct (snd sw).
  - destruct (milliseconds s) as [ms|e].
    + exists [PlaybackSeek ms]. repeat split; eauto.
    + exists []. rewrite app_nil_r. repeat split; auto.
  - exists []. rewrite app_nil_r. repeat split; auto.
Qed.

Lemma pause_run (pause_state : option bool) (c : Core) :
  pause pause_state c =
  match pause_state with
  | Some true => ([PlaybackPause], Ok tt)
  | Some false => ([PlaybackResume], Ok tt)
  | None =>
      match state c with
      | PLAYING => ([PlaybackGetState; PlaybackPause], Ok tt)
      | PAUSED => ([PlaybackGetState; PlaybackResume], Ok tt)
      | STOPPED => ([PlaybackGetState], Ok tt)
      end
  end.
Proof.
  unfold pause. run_handler.
  destruct pause_state as [[|]|]; try reflexivity.
  destruct (state c); reflexivity.
Qed.

(** X14: every handler is done asking before it changes anything: in the
    call log of [pause], [play], [playid], [seek], [seekid], [seekcur],
    [setvol] and [volume] no query to an actor comes after a request to
    one, on any core and for any arguments. *)
Theorem queries_come_first
  (FLOAT UFLOAT : string -> result float) (c : Core) :
  (forall state, queries_first (calls (pause state) c) = true) /\
  (forall songpos, queries_first (calls (play songpos) c) = true) /\
  (forall songid, queries_first (calls (playid songid) c) = true) /\
  (forall songpos seconds,
     queries_first (calls (seek songpos seconds) c) = true) /\
  (forall songid seconds,
     queries_first (calls (seekid songid seconds) c) = true) /\
  (forall time, queries_first (calls (seekcur FLOAT UFLOAT time) c) = true) /\
  (forall volume, queries_first (calls (setvol volume) c) = true) /\
  (forall change, queries_first (calls (volume change) c) = true).
Proof.
  repeat apply conj.
  - intros st. unfold calls. rewrite pause_run.
    destruct st as [[|]|]; try reflexivity.
    destruct (state c); reflexivity.
  - intros songpos. apply play_log_is_tidy.
  - intros songid. apply playid_log_is_tidy.
  - intros songpos s.
    destruct (seek_log c songpos s) as (sw & rest & -> & Hsw & Hrest).
    rewrite queries_first_after_queries by reflexivity.
    apply queries_first_before_requests.
    + destruct Hsw as [->| ->]; [reflexivity|apply play_log_is_tidy].
    + destruct Hrest as [->|(ms & ->)]; reflexivity.
  - intros songid s.
    destruct (seekid_log c songid s) as (sw & rest & -> & Hsw & Hrest).
    rewrite queries_first_after_queries by reflexivity.
    apply queries_first_before_requests.
    + destruct Hsw as [->| ->]; [reflexivity|apply playid_log_is_tidy].
    + destruct Hrest as [->|(ms & ->)]; reflexivity.
  - intros time. unfold calls.
    destruct (Py.startswith_sign time) eqn:Hsign.
    + rewrite seekcur_relative_run by assumption.
      destruct (FLOAT time) as [s|]; [|reflexivity].
      destruct (milliseconds s); reflexivity.
    + rewrite seekcur_absolute_run by assumption.
      destruct (UFLOAT time) as [s|]; [|reflexivity].
      destruct (milliseconds s); reflexivity.
  - intros v. unfold calls. rewrite setvol_run. reflexivity.
  - intros change. unfold calls. rewrite volume_run.
    destruct ((change <? -100) || (change >? 100)); [reflexivity|].
    destruct (mixer_volume c); reflexivity.
Qed.

(** X15: a handler asks the actors to do little: [pause], [play],
    [playid], [seekcur] and [volume] make at most one request, [setvol]
    exactly one, and [seek] and [seekid] at most two, the track switch and
    the seek. *)
Theorem requests_are_few
  (FLOAT UFLOAT : string -> result float) (c : Core) :
  (forall state,
     (List.length (filter is_request (calls (pause state) c)) <= 1)%nat) /\
  (forall songpos,
     (List.length (filter is_request (calls (play songpos) c)) <= 1)%nat) /\
  (forall songid,
     (List.length (filter is_request (calls (playid songid) c)) <= 1)%nat) /\
  (forall songpos seconds,
     (List.length (filter is_request (calls (seek songpos seconds) c))
      <= 2)%nat) /\
  (forall songid seconds,
     (List.length (filter is_request (calls (seekid songid seconds) c))
      <= 2)%nat) /\
  (forall time,
     (List.length (filter is_request (calls (seekcur FLOAT UFLOAT time) c))
      <= 1)%nat) /\
  (forall volume,
     List.length (filter is_request (calls (setvol volume) c)) = 1%nat) /\
  (forall change,
     (List.length (filter is_request (calls (volume change) c)) <= 1)%nat).
Proof.
  repeat apply conj.
  - intros st. unfold calls. rewrite pause_run.
    destruct st as [[|]|]; simpl; try lia.
    destruct (state c); simpl; lia.
  - intros songpos. apply Nat.leb_le, play_log_is_tidy.
  - intros songid. apply Nat.leb_le, playid_log_is_tidy.
  - intros songpos s.
    destruct (seek_log c songpos s) as (sw & rest & -> & Hsw & Hrest).
    rewrite !count_app.
    assert (Hone : (List.length (filter is_request sw) <= 1)%nat).
    { destruct Hsw as [->| ->]; [simpl; lia|].
      apply Nat.leb_le, play_log_is_tidy. }
    destruct Hrest as [->|(ms & ->)]; simpl; lia.
  - intros songid s.
    destruct (seekid_log c songid s) as (sw & rest & -> & Hsw & Hrest).
    rewrite !count_app.
    assert (Hone : (List.length (filter is_request sw) <= 1)%nat).
    { destruct Hsw as [->| ->]; [simpl; lia|].
      apply Nat.leb_le, playid_log_is_tidy. }
    destruct Hrest as [->|(ms & ->)]; simpl; lia.
  - intros time. unfold calls.
    destruct (Py.startswith_sign time) eqn:Hsign.
    + rewrite seekcur_relative_run by assumption.
      destruct (FLOAT time) as [s|]; [|simpl; lia].
      destruct (milliseconds s); simpl; lia.
    + rewrite seekcur_absolute_run by assumption.
      destruct (UFLOAT time) as [s|]; [|simpl; lia].
      destruct (milliseconds s); simpl; lia.
  - intros v. unfold calls. rewrite setvol_run. reflexivity.
  - intros change. unfold calls. rewrite volume_run.
    destruct ((change <? -100) || (change >? 100)); [simpl; lia|].
    destruct (mixer_volume c); simpl; lia.
Qed.

(** X16: the handlers keep to their actors: [pause], [play], [playid],
    [seek], [seekid] and [seekcur] never call the mixer, and [setvol] and
    [volume] call nothing but the mixer. *)
Theorem handlers_keep_to_their_actors
  (FLOAT UFLOAT : string -> result float) (c : Core) :
  let apart := forallb (fun k => negb (is_mixer_call k)) in
  (forall state, apart (calls (pause state) c) = true) /\
  (forall songpos, apart (calls (play songpos) c) = true) /\
  (forall songid, apart (calls (playid songid) c) = true) /\
  (forall songpos seconds, apart (calls (seek songpos seconds) c) = true) /\
  (forall songid seconds, apart (calls (seekid songid seconds) c) = true) /\
  (forall time, apart (calls (seekcur FLOAT UFLOAT time) c) = true) /\
  (forall volume, forallb is_mixer_call (calls (setvol volume) c) = true) /\
  (forall change, forallb is_mixer_call (calls (volume change) c) = true).
Proof.
  intros apart. unfold apart. repeat apply conj.
  - intros st. unfold calls. rewrite pause_run.
    destruct st as [[|]|]; try reflexivity.
    destruct (state c); reflexivity.
  - intros songpos. apply play_log_is_tidy.
  - intros songid. apply playid_log_is_tidy.
  - intros songpos s.
    destruct (seek_log c songpos s) as (sw & rest & -> & Hsw & Hrest).
    rewrite !forallb_app. simpl.
    assert (Hsw' : forallb (fun k => negb (is_mixer_call k)) sw = true).
    { destruct Hsw as [->| ->]; [reflexivity|apply play_log_is_tidy]. }
    rewrite Hsw'. destruct Hrest as [->|(ms & ->)]; reflexivity.
  - intros songid s.
    destruct (seekid_log c songid s) as (sw & rest & -> & Hsw & Hrest).
    rewrite !forallb_app. simpl.
    assert (Hsw' : forallb (fun k => negb (is_mixer_call k)) sw = true).
    { destruct Hsw as [->| ->]; [reflexivity|apply playid_log_is_tidy]. }
    rewrite Hsw'. destruct Hrest as [->|(ms & ->)]; reflexivity.
  - intros time. unfold calls.
    destruct (Py.startswith_sign time) eqn:Hsign.
    + rewrite seekcur_relative_run by assumption.
      destruct (FLOAT time) as [s|]; [|reflexivity].
      destruct (milliseconds s); reflexivity.
    + rewrite seekcur_absolute_run by assumption.
      destruct (UFLOAT time) as [s|]; [|reflexivity].
      destruct (milliseconds s); reflexivity.
  - intros v. unfold calls. rewrite setvol_run. reflexivity.
  - intros change. unfold calls. rewrite volume_run.
    destruct ((change <? -100) || (change >? 100)); [reflexivity|].
    destruct (mixer_volume c); reflexivity.
Qed.

(** ** Which handlers are not implemented *)

(** X17: [crossfade], [mixrampdb], [mixrampdelay] and [replay_gain_mode]
    raise the not-implemented error for every argument and on every core,
    before any actor is called, and [replay_gain_status] answers
    [("replay_gain_mode", "off")] without a call.  No other handler of the
    file ever raises the not-implemented error. *)
Theorem only_the_stubs_are_not_implemented (c : Core) :
  (forall seconds, crossfade seconds c = ([], Raise MpdNotImplementedError)) /\
  (forall decibels,
     mixrampdb decibels c = ([], Raise MpdNotImplementedError)) /\
  (forall seconds,
     mixrampdelay seconds c = ([], Raise MpdNotImplementedError)) /\
  (forall mode, replay_gain_mode mode c = ([], Raise MpdNotImplementedError)) /\
  replay_gain_status c = ([], Ok ("replay_gain_mode"%string, "off"%string)) /\
  (forall state, outcome (pause state) c <> Raise MpdNotImplementedError) /\
  (forall songpos, outcome (play songpos) c <> Raise MpdNotImplementedError) /\
  (forall songid, outcome (playid songid) c <> Raise MpdNotImplementedError) /\
  (forall songpos seconds,
     outcome (seek songpos seconds) c <> Raise MpdNotImplementedError) /\
  (forall songid seconds,
     outcome (seekid songid seconds) c <> Raise MpdNotImplementedError) /\
  (forall volume, outcome (setvol volume) c <> Raise MpdNotImplementedError) /\
  (forall change, outcome (volume change) c <> Raise MpdNotImplementedError).
Proof.
  repeat apply conj; try reflexivity.
  - intros st. unfold outcome. rewrite pause_run.
    destruct st as [[|]|]; try discriminate.
    destruct (state c); discriminate.
  - intros songpos.
    destruct (play_outcome_cases songpos c) as [-> | ->]; discriminate.
  - intros songid.
    destruct (playid_outcome songid c) as [-> | ->]; discriminate.
  - intros songpos s Hraise.
    destruct (seek_outcome c songpos s _ Hraise) as [H|[H|H]]; discriminate.
  - intros songid s Hraise.
    destruct (seekid_outcome c songid s _ Hraise) as [H|[H|H]]; discriminate.
  - intros v. unfold outcome. rewrite setvol_run.
    destruct (mixer_accepts c _); discriminate.
  - intros change. unfold outcome. rewrite volume_run.
    destruct ((change <? -100) || (change >? 100)); [discriminate|].
    destruct (mixer_volume c); [|discriminate].
    destruct (mixer_accepts c _); discriminate.
Qed.
